(** * backendGOVAI: the negotiation engine of [quote.py] and the reply parser
      of [app.py], embedded in Rocq.

    The development follows the two source files:
    - [PyFloat], [PyStr], [Re]: the fragment of Python's [float], [str] and
      [re] that the code relies on;
    - [Quote]: [extract_price_from_message], the pricing strategy of
      [generate_supplier_response] and the three routes of [quote.py] over an
      explicit store;
    - [App]: [parse_raw_output] and the end of [analyze_solicitations];
    - then the notions the properties are stated with, a sample negotiation,
      and the properties themselves: the price extractor, the pricing
      strategy, the negotiation state machine and the reply of the document
      analysis. *)

From Stdlib Require Import ZArith String Ascii List Bool Lia SpecFloat.
From Stdlib Require Import DecimalString.
From stdpp Require Import base option list gmap strings.

Import ListNotations.
Local Open Scope string_scope.
Local Open Scope Z_scope.

(* ================================================================== *)
(** ** Python floats: IEEE 754 binary64 *)
(* ================================================================== *)

Module PyFloat.

(** A Python [float] is a binary64 number: 53 bits of precision, exponents
    below 1024.  [spec_float] is the specification of these numbers the
    standard library gives, with round-to-nearest-even operations. *)
Definition float : Type := spec_float.

Definition prec : Z := 53.
Definition emax : Z := 1024.

Definition fadd (x y : float) : float := SFadd prec emax x y.
Definition fmul (x y : float) : float := SFmul prec emax x y.
Definition fdiv (x y : float) : float := SFdiv prec emax x y.

(** [x > y], [x >= y] and [x == y] on floats. *)
Definition fgt (x y : float) : bool := SFltb y x.
Definition fge (x y : float) : bool := SFleb y x.
Definition flt (x y : float) : bool := SFltb x y.
Definition feq (x y : float) : bool := SFeqb x y.

(** The decimal [n / 10^k] ([n >= 0], [k] digits after the point), correctly
    rounded: what a literal such as [1.10] denotes and what [float(s)] gives
    on a string of digits.  The quotient of the two integers is rounded
    once. *)
Definition of_decimal (n : Z) (k : nat) : float :=
  match n with
  | Zpos p =>
      SFdiv prec emax (S754_finite false p 0)
                      (S754_finite false (Z.to_pos (10 ^ Z.of_nat k)) 0)
  | _ => S754_zero false
  end.

(** [float(i)] for an [int], as in the mixed operations [1.5 + i / 100]
    and [val > 100]. *)
Definition of_int (i : Z) : float := binary_normalize prec emax i 0 false.

(** [a / b] on two ints (true division), [b > 0]: the correctly rounded
    quotient. *)
Definition int_truediv (a b : Z) : float :=
  match a, b with
  | Zpos p, Zpos q =>
      SFdiv prec emax (S754_finite false p 0) (S754_finite false q 0)
  | Zneg p, Zpos q =>
      SFdiv prec emax (S754_finite true p 0) (S754_finite false q 0)
  | _, _ => S754_zero false
  end.

(** Truth value of a float: [bool(x)] is [x != 0.0]. *)
Definition truthy (x : float) : bool := negb (feq x (S754_zero false)).

(** [x or y] where [x] is a float or [None] and [y] a float. *)
Definition or_else (x : option float) (y : float) : float :=
  match x with
  | Some v => if truthy v then v else y
  | None => y
  end.

(** [max(l)] on a non-empty list: the first element no later one exceeds. *)
Definition max_from (x : float) (l : list float) : float :=
  fold_left (fun m y => if fgt y m then y else m) l x.

Definition py_max (l : list float) : option float :=
  match l with
  | [] => None
  | x :: l' => Some (max_from x l')
  end.

(** [x - y] *)
Definition fsub (x y : float) : float := SFsub prec emax x y.

(** [x / y] on floats: [None] is [ZeroDivisionError]. *)
Definition py_div (x y : float) : option float :=
  if feq y (S754_zero false) then None else Some (fdiv x y).

(** [num / den] rounded to the nearest integer, ties to the even one
    ([0 <= num], [0 < den]). *)
Definition round_half_even (num den : Z) : Z :=
  let q := num / den in
  match 2 * (num mod den) ?= den with
  | Lt => q
  | Gt => q + 1
  | Eq => if Z.even q then q else q + 1
  end.

(** [m * 2^e * 10^d] rounded to an integer: the digits of a float with [d]
    decimals.  The rounding is on the exact binary value. *)
Definition scaled (d : nat) (m : positive) (e : Z) : Z :=
  if 0 <=? e then Z.pos m * 2 ^ e * 10 ^ Z.of_nat d
  else round_half_even (Z.pos m * 10 ^ Z.of_nat d) (2 ^ (- e)).

Fixpoint zeros (n : nat) : string :=
  match n with
  | O => EmptyString
  | S n' => String "0" (zeros n')
  end.

(** The integer [n >= 0] written with its last [d] digits after a point,
    [0 < d]. *)
Definition fixed_digits (d : nat) (n : Z) : string :=
  let frac := NilZero.string_of_int (Z.to_int (n mod 10 ^ Z.of_nat d)) in
  (NilZero.string_of_int (Z.to_int (n / 10 ^ Z.of_nat d)) ++ "."
   ++ zeros (d - String.length frac) ++ frac)%string.

Definition sign_of (s : bool) : string := if s then "-" else "".

(** The format ".df" of an f-string ([0 < d]): [f"{x:.2f}"] is
    [format_fixed 2 x]. *)
Definition format_fixed (d : nat) (x : float) : string :=
  match x with
  | S754_nan => "nan"
  | S754_infinity s => (sign_of s ++ "inf")%string
  | S754_zero s => (sign_of s ++ fixed_digits d 0)%string
  | S754_finite s m e => (sign_of s ++ fixed_digits d (scaled d m e))%string
  end.

End PyFloat.

(* ================================================================== *)
(** ** Python strings *)
(* ================================================================== *)

Module PyStr.

(** A text is a [string] whose characters are the code points below 256. *)

Definition code (c : ascii) : Z := Z.of_N (N_of_ascii c).

Definition is_digit (c : ascii) : bool :=
  (48 <=? code c) && (code c <=? 57).

(** [str.isspace] and [\s] on the code points below 256. *)
Definition is_space (c : ascii) : bool :=
  let n := code c in
  ((9 <=? n) && (n <=? 13)) || ((28 <=? n) && (n <=? 32))
  || (n =? 133) || (n =? 160).

Definition lower_char (c : ascii) : ascii :=
  let n := code c in
  if ((65 <=? n) && (n <=? 90))
     || ((192 <=? n) && (n <=? 222) && negb (n =? 215))
  then ascii_of_N (Z.to_N (n + 32)) else c.

(** [s.lower()] *)
Fixpoint lower (s : string) : string :=
  match s with
  | EmptyString => EmptyString
  | String c s' => String (lower_char c) (lower s')
  end.

(** [s.replace(',', '')] *)
Fixpoint remove_commas (s : string) : string :=
  match s with
  | EmptyString => EmptyString
  | String c s' =>
      if Ascii.eqb c "," then remove_commas s' else String c (remove_commas s')
  end.

(** [s[:n]] for [0 <= n]. *)
Fixpoint prefix (n : nat) (s : string) : string :=
  match n, s with
  | S n', String c s' => String c (prefix n' s')
  | _, _ => EmptyString
  end.

(** Reads a run of decimal digits: the number read so far, how many digits
    were read, and the rest. *)
Fixpoint read_digits (s : string) (acc : Z) (n : nat) : Z * nat * string :=
  match s with
  | String c s' =>
      if is_digit c then read_digits s' (10 * acc + (code c - 48)) (S n)
      else (acc, n, s)
  | EmptyString => (acc, n, s)
  end.

(** [float(s)] on the strings the extractor hands it: digits with at most
    one point ([12], [12.], [.5], [12.50]).  [None] is [ValueError], raised
    on the empty string and on a lone point; a string of another shape never
    reaches [float] here, since a captured group is made of digits, commas
    and at most one point, and the commas are removed first. *)
Definition py_float (s : string) : option PyFloat.float :=
  let '(i, ni, r) := read_digits s 0 0 in
  match r with
  | EmptyString =>
      if Nat.eqb ni 0 then None else Some (PyFloat.of_decimal i 0)
  | String c r' =>
      if Ascii.eqb c "." then
        let '(v, nf, r'') := read_digits r' i 0 in
        match r'' with
        | EmptyString =>
            if Nat.eqb (ni + nf) 0 then None
            else Some (PyFloat.of_decimal v nf)
        | String _ _ => None
        end
      else None
  end.

(** [str(i)] for an int. *)
Definition str_of_int (i : Z) : string := NilZero.string_of_int (Z.to_int i).

(** [l[-1]] when [l] is not empty. *)
Definition last_item {A} (l : list A) : option A := last l.

End PyStr.

(* ================================================================== *)
(** ** The regular expressions of [re] that the extractor uses *)
(* ================================================================== *)

Module Re.
Import PyStr.

(** Character classes: [\d], [\s], one character, and a bracket of two. *)
Inductive cls : Type :=
| Digit
| Space
| Chr (c : ascii)
| Either (a b : cls).

Fixpoint in_cls (k : cls) (c : ascii) : bool :=
  match k with
  | Digit => is_digit c
  | Space => is_space c
  | Chr d => Ascii.eqb c d
  | Either a b => in_cls a c || in_cls b c
  end.

(** The patterns of the source use literals, greedy [?], greedy [*] and [+]
    on a class, alternation in a non-capturing group, and one capturing
    group. *)
Inductive regex : Type :=
| Lit (s : string)
| Cat (r1 r2 : regex)
| Alt (r1 r2 : regex)
| Opt (r : regex)
| Star (k : cls)
| Plus (k : cls)
| Group (r : regex).

(** What a successful match leaves: the text after it and group 1. *)
Definition hit : Type := string * option string.

Fixpoint eat_literal (l s : string) : option string :=
  match l with
  | EmptyString => Some s
  | String a l' =>
      match s with
      | String b s' => if Ascii.eqb a b then eat_literal l' s' else None
      | EmptyString => None
      end
  end.

(** Greedy repetition of a class with backtracking: the longest run first,
    then one character less each time the rest of the pattern fails. *)
Fixpoint star (k : cls) (s : string) (cont : string -> option hit)
  : option hit :=
  match s with
  | String c s' =>
      if in_cls k c then
        match star k s' cont with
        | Some h => Some h
        | None => cont s
        end
      else cont s
  | EmptyString => cont s
  end.

(** The backtracking matcher, in continuation-passing style: [exec r s g
    cont] matches [r] at the start of [s] with group 1 currently [g], and
    hands what is left to [cont]; alternatives are tried in the order the
    engine tries them. *)
Fixpoint exec (r : regex) (s : string) (g : option string)
    (cont : string -> option string -> option hit) : option hit :=
  match r with
  | Lit l =>
      match eat_literal l s with
      | Some s' => cont s' g
      | None => None
      end
  | Cat r1 r2 => exec r1 s g (fun s' g' => exec r2 s' g' cont)
  | Alt r1 r2 =>
      match exec r1 s g cont with
      | Some h => Some h
      | None => exec r2 s g cont
      end
  | Opt r1 =>
      match exec r1 s g cont with
      | Some h => Some h
      | None => cont s g
      end
  | Star k => star k s (fun s' => cont s' g)
  | Plus k =>
      match s with
      | String c s' =>
          if in_cls k c then star k s' (fun s'' => cont s'' g) else None
      | EmptyString => None
      end
  | Group r1 =>
      exec r1 s g
        (fun s' _ =>
           cont s' (Some (prefix (String.length s - String.length s') s)))
  end.

(** A match anchored at the start of [s]. *)
Definition match_here (r : regex) (s : string) : option hit :=
  exec r s None (fun s' g => Some (s', g)).

(** [re.findall(r, s)] for a pattern with one group: the group of every
    match, leftmost first, each search resuming where the previous match
    ended.  [skip] counts the characters of the current match still to be
    passed over.  Every pattern of the source needs a digit or a comma, so
    no match is empty. *)
Fixpoint findall_from (r : regex) (s : string) (skip : nat) : list string :=
  match s with
  | EmptyString =>
      match skip, match_here r s with
      | O, Some (_, g) => [default "" g]
      | _, _ => []
      end
  | String _ s' =>
      match skip with
      | S n => findall_from r s' n
      | O =>
          match match_here r s with
          | Some (rest, g) =>
              default "" g
                :: findall_from r s'
                     (String.length s - String.length rest - 1)
          | None => findall_from r s' O
          end
      end
  end.

Definition findall (r : regex) (s : string) : list string :=
  findall_from r s O.

End Re.

(* ================================================================== *)
(** ** [quote.py] *)
(* ================================================================== *)

Module Quote.
Import PyFloat PyStr Re.

(** *** [extract_price_from_message] *)

(** The amount every pattern ends or starts with: an optional dollar sign,
    then the captured group, which is one or more digits or commas, an
    optional point and further digits.  Alone it is the pattern of the
    fallback. *)
Definition amount : regex :=
  Cat (Opt (Lit "$"))
      (Group (Cat (Plus (Either Digit (Chr ",")))
                  (Cat (Opt (Lit ".")) (Star Digit)))).

(** An optional colon and white space before the amount. *)
Definition colon_amount : regex :=
  Cat (Opt (Lit ":")) (Cat (Star Space) amount).

(** The five label-anchored patterns, in the order of the source: total,
    total cost/price/amount, grand total, amount before total, and quoted
    price/amount. *)
Definition pattern_total : regex :=
  Cat (Lit "total") colon_amount.
Definition pattern_total_cost : regex :=
  Cat (Lit "total")
      (Cat (Star Space)
           (Cat (Alt (Lit "cost") (Alt (Lit "price") (Lit "amount")))
                colon_amount)).
Definition pattern_grand_total : regex :=
  Cat (Lit "grand") (Cat (Star Space) (Cat (Lit "total") colon_amount)).
Definition pattern_amount_total : regex :=
  Cat amount (Cat (Star Space) (Lit "total")).
Definition pattern_quoted : regex :=
  Cat (Lit "quoted")
      (Cat (Star Space)
           (Cat (Alt (Lit "price") (Lit "amount")) colon_amount)).

Definition patterns : list regex :=
  [pattern_total; pattern_total_cost; pattern_grand_total;
   pattern_amount_total; pattern_quoted].

(** One turn of the loop over [patterns]: the last match of [p], without its
    commas, as a float.  [None] when [p] has no match, and when [float]
    raises (the [except: continue]). *)
Definition labelled_price (p : regex) (text : string) : option float :=
  match last_item (findall p text) with
  | Some m => py_float (remove_commas m)
  | None => None
  end.

(** The loop: the first pattern whose turn returns. *)
Fixpoint first_labelled (ps : list regex) (text : string) : option float :=
  match ps with
  | [] => None
  | p :: ps' =>
      match labelled_price p text with
      | Some v => Some v
      | None => first_labelled ps' text
      end
  end.

(** The fallback loop: the amounts that parse and exceed 100, in order. *)
Fixpoint large_amounts (dollar_amounts : list string) : list float :=
  match dollar_amounts with
  | [] => []
  | a :: rest =>
      match py_float (remove_commas a) with
      | Some val =>
          if fgt val (of_int 100) then val :: large_amounts rest
          else large_amounts rest
      | None => large_amounts rest
      end
  end.

Definition fallback_price (content : string) : option float :=
  py_max (large_amounts (findall amount content)).

Definition extract_price_from_message (content : string) : option float :=
  match first_labelled patterns (lower content) with
  | Some v => Some v
  | None => fallback_price content
  end.

(** *** The models: sessions, suppliers and messages *)

Record NegotiationSession : Type := {
  opportunity_id : string;
  opportunity_title : string;
  opportunity_data : string;          (* JSON string *)
  target_price : float;
  extracted_requirements : string;    (* JSON string *)
  session_status : string             (* default 'active' *)
}.

Record Supplier : Type := {
  session_id : Z;
  company_name : string;
  industry : string;
  initial_price : option float;
  final_price : option float;
  status : string;                    (* default 'pending' *)
  negotiation_round : Z               (* default 0 *)
}.

Record Message : Type := {
  message_id : Z;
  supplier_id : Z;
  sender : string;                    (* 'buyer' or 'supplier' *)
  content : string;
  price_mentioned : option float;
  created_at : Z
}.

(** The store: two tables keyed by their primary key, and the messages in
    the order of their insertion. *)
Record DB : Type := {
  sessions : gmap Z NegotiationSession;
  suppliers : gmap Z Supplier;
  messages : list Message
}.

Definition empty_db : DB :=
  {| sessions := ∅; suppliers := ∅; messages := [] |}.

(** The next primary key of a table: one more than the largest in use. *)
Definition next_key {A} (table : gmap Z A) : Z :=
  1 + map_fold (fun k _ acc => Z.max k acc) 0 table.

Definition next_message_id (l : list Message) : Z :=
  1 + fold_right (fun m acc => Z.max (message_id m) acc) 0 l.

Definition set_suppliers (db : DB) (t : gmap Z Supplier) : DB :=
  {| sessions := sessions db; suppliers := t; messages := messages db |}.

Definition set_messages (db : DB) (l : list Message) : DB :=
  {| sessions := sessions db; suppliers := suppliers db; messages := l |}.

Definition with_initial_quote (s : Supplier) (price : float) : Supplier :=
  {| session_id := session_id s; company_name := company_name s;
     industry := industry s; initial_price := Some price;
     final_price := final_price s; status := "negotiating";
     negotiation_round := negotiation_round s |}.

Definition with_round (s : Supplier) (r : Z) : Supplier :=
  {| session_id := session_id s; company_name := company_name s;
     industry := industry s; initial_price := initial_price s;
     final_price := final_price s; status := status s;
     negotiation_round := r |}.

Definition with_final_price (s : Supplier) (price : float) : Supplier :=
  {| session_id := session_id s; company_name := company_name s;
     industry := industry s; initial_price := initial_price s;
     final_price := Some price; status := status s;
     negotiation_round := negotiation_round s |}.

Definition with_status (s : Supplier) (st : string) : Supplier :=
  {| session_id := session_id s; company_name := company_name s;
     industry := industry s; initial_price := initial_price s;
     final_price := final_price s; status := st;
     negotiation_round := negotiation_round s |}.

(** [filter_by(supplier_id=..., sender='supplier')] *)
Definition from_supplier (id : Z) (m : Message) : bool :=
  (supplier_id m =? id) && String.eqb (sender m) "supplier".

Definition supplier_sent (db : DB) (id : Z) : list Message :=
  List.filter (from_supplier id) (messages db).

(** [.count()] *)
Definition count_supplier_sent (db : DB) (id : Z) : Z :=
  Z.of_nat (length (supplier_sent db id)).

(** [.order_by(Message.created_at.desc()).first()]: a row of the greatest
    creation time; of two rows of the same time the one inserted first. *)
Fixpoint latest (l : list Message) : option Message :=
  match l with
  | [] => None
  | m :: l' =>
      match latest l' with
      | Some m' => if created_at m <? created_at m' then Some m' else Some m
      | None => Some m
      end
  end.

(** The relationship [supplier.messages]: the rows of the supplier, ordered
    by creation time. *)
Fixpoint insert_by_time (m : Message) (l : list Message) : list Message :=
  match l with
  | [] => [m]
  | m' :: l' =>
      if created_at m <? created_at m' then m :: l
      else m' :: insert_by_time m l'
  end.

Definition order_by_time (l : list Message) : list Message :=
  fold_left (fun acc m => insert_by_time m acc) l [].

Definition messages_of (db : DB) (id : Z) : list Message :=
  order_by_time (List.filter (fun m => supplier_id m =? id) (messages db)).

(** [messages[-3:]] *)
Definition last3 {A} (l : list A) : list A := drop (length l - 3)%nat l.

(** The requirements record the first prompt asks for.  The two fields read
    with [.get] may be absent. *)
Record Requirements : Type := {
  product_service : string;
  quantity : string;
  delivery_location : string;
  key_requirements : list string;
  certifications_needed : list string;
  timeline : string;
  industry_category : option string;
  suggested_suppliers : option (list string)
}.

(** The opportunity of a creation request: its ['id'], its optional
    ['title'] and its [json.dumps]. *)
Record Opportunity : Type := {
  opp_id : string;
  opp_title : option string;
  opp_dump : string
}.

(** The completion service, one field per prompt of the source; each takes
    the values the prompt interpolates and gives the text of the reply, or
    [None] when building the prompt or calling the service raises.  The
    service is not deterministic: every request comes with its own. *)
Record LLM : Type := {
  complete_requirements : Opportunity -> option string;
  complete_initial_request :
    Opportunity -> Requirements -> string -> string -> option string;
  complete_supplier_response :
    string -> Requirements -> list Message -> Z -> float -> option string;
  complete_negotiation_response :
    list Message -> Requirements -> Z -> option string
}.

(** What a request reads from outside the store: the completion service and
    the clock ([utcnow n] is the creation time of the n-th row the request
    inserts into the messages). *)
Record Env : Type := {
  llm : LLM;
  utcnow : nat -> Z
}.

(** The status of the reply to a request. *)
Inductive http : Type := OK | NOT_FOUND | SERVER_ERROR.

Section Routes.

(** The builtin [hash] on strings, and [json.loads] / [json.dumps] on the
    requirements ([None]: the text is not the JSON of such a record). *)
Variable hash : string -> Z.
Variable json_loads : string -> option Requirements.
Variable json_dumps : Requirements -> string.

(** *** [generate_supplier_response]: the pricing strategy *)

Definition price_multiplier (company_name : string) (round_num : Z) : float :=
  if round_num =? 0 then
    fadd (of_decimal 15 1) (int_truediv (hash company_name mod 30) 100)
  else if round_num =? 1 then
    fadd (of_decimal 125 2)
         (int_truediv
            (hash (company_name ++ str_of_int round_num) mod 20) 100)
  else
    fadd (of_decimal 110 2)
         (int_truediv
            (hash (company_name ++ str_of_int round_num) mod 15) 100).

Definition suggested_price
    (company_name : string) (round_num : Z) (target : float) : float :=
  fmul target (price_multiplier company_name round_num).

Definition generate_supplier_response (env : Env) (company_name : string)
    (requirements : Requirements) (msgs : list Message) (round_num : Z)
    (target : float) : option (string * float) :=
  let price := suggested_price company_name round_num target in
  match complete_supplier_response (llm env) company_name requirements
          (last3 msgs) round_num price with
  | Some text => Some (text, price)
  | None => None
  end.

Definition generate_negotiation_response (env : Env) (msgs : list Message)
    (requirements : Requirements) (round_num : Z) : option string :=
  complete_negotiation_response (llm env) (last3 msgs) requirements round_num.

(** *** [respond_to_supplier] *)

(** A request that raises commits nothing: the store it leaves is the one it
    found. *)
Definition respond_to_supplier (env : Env) (db : DB)
    (session_id supplier_id : Z) : http * DB :=
  match sessions db !! session_id with
  | None => (NOT_FOUND, db)
  | Some session =>
  match suppliers db !! supplier_id with
  | None => (NOT_FOUND, db)
  | Some supplier =>
  match json_loads (extracted_requirements session) with
  | None => (SERVER_ERROR, db)
  | Some requirements =>
  let supplier_messages := count_supplier_sent db supplier_id in
  let first := supplier_messages =? 0 in
  let round_num := if first then 0 else negotiation_round supplier in
  let history := messages_of db supplier_id in
  match generate_supplier_response env (company_name supplier) requirements
          history round_num (target_price session) with
  | None => (SERVER_ERROR, db)
  | Some (response, price) =>
  let supplier1 :=
    if first then with_initial_quote supplier price else supplier in
  let msg :=
    {| message_id := next_message_id (messages db);
       supplier_id := supplier_id;
       sender := "supplier";
       content := response;
       price_mentioned :=
         Some (or_else (extract_price_from_message response) price);
       created_at := utcnow env 0 |} in
  if negotiation_round supplier1 <? 2 then
    let supplier2 :=
      with_round supplier1 (negotiation_round supplier1 + 1) in
    match generate_negotiation_response env (history ++ [msg]) requirements
            (negotiation_round supplier2) with
    | None => (SERVER_ERROR, db)
    | Some buyer_response =>
        let buyer_msg :=
          {| message_id := 1 + message_id msg;
             supplier_id := supplier_id;
             sender := "buyer";
             content := buyer_response;
             price_mentioned := None;
             created_at := utcnow env 1 |} in
        (OK, {| sessions := sessions db;
                suppliers := <[supplier_id := supplier2]> (suppliers db);
                messages := messages db ++ [msg; buyer_msg] |})
    end
  else
    let supplier2 :=
      with_final_price supplier1
        (or_else (extract_price_from_message response) price) in
    (OK, {| sessions := sessions db;
            suppliers := <[supplier_id := supplier2]> (suppliers db);
            messages := messages db ++ [msg] |})
  end end end end.

(** *** [accept_quote] *)

Definition accept_quote (db : DB) (session_id supplier_id : Z) : http * DB :=
  match suppliers db !! supplier_id with
  | None => (NOT_FOUND, db)
  | Some supplier =>
      let supplier1 := with_status supplier "completed" in
      let last_supplier_msg := latest (supplier_sent db supplier_id) in
      let supplier2 :=
        match last_supplier_msg with
        | Some m =>
            match price_mentioned m with
            | Some p =>
                if truthy p then with_final_price supplier1 p else supplier1
            | None => supplier1
            end
        | None => supplier1
        end in
      (OK, set_suppliers db (<[supplier_id := supplier2]> (suppliers db)))
  end.

(** *** [create_negotiation] *)

Definition default_requirements (opportunity : Opportunity) : Requirements :=
  {| product_service :=
       default "Government Contract Services" (opp_title opportunity);
     quantity := "As specified in RFP";
     delivery_location := "As specified";
     key_requirements :=
       ["Meet all RFP requirements"; "Timely delivery"; "Quality assurance"];
     certifications_needed := ["As required"];
     timeline := "As per contract";
     industry_category := Some "services";
     suggested_suppliers :=
       Some ["Federal Contractors Inc"; "Government Solutions LLC";
             "Contract Services Corp"; "Public Sector Partners";
             "Federal Supply Company"] |}.

(** [None]: the call to the service raised (it is outside the [try]); a reply
    that is not JSON gives the default record. *)
Definition extract_requirements_from_opportunity
    (env : Env) (opportunity : Opportunity) : option Requirements :=
  match complete_requirements (llm env) opportunity with
  | None => None
  | Some reply =>
      match json_loads reply with
      | Some r => Some r
      | None => Some (default_requirements opportunity)
      end
  end.

(** [l[:n]], where a negative [n] counts from the end. *)
Definition slice_to {A} (n : Z) (l : list A) : list A :=
  if 0 <=? n then take (Z.to_nat n) l
  else take (length l - Z.to_nat (- n))%nat l.

(** The [while] loop that pads the names: [k] turns. *)
Fixpoint pad_names (k : nat) (names : list string) : list string :=
  match k with
  | O => names
  | S k' =>
      pad_names k'
        (names ++ ["Qualified Contractor #"
                     ++ str_of_int (Z.of_nat (length names) + 1)])
  end.

Definition supplier_names (requirements : Requirements) (num_suppliers : Z)
    : list string :=
  let names :=
    slice_to num_suppliers (default [] (suggested_suppliers requirements)) in
  pad_names (Z.to_nat (num_suppliers - Z.of_nat (length names))) names.

(** A commit writes the message added since the previous one, if any:
    [pending] is its supplier, its text and its rank in the request. *)
Definition flush (env : Env) (pending : option (Z * string * nat)) (db : DB)
    : DB :=
  match pending with
  | None => db
  | Some (id, text, n) =>
      set_messages db
        (messages db ++
           [{| message_id := next_message_id (messages db);
               supplier_id := id;
               sender := "buyer";
               content := text;
               price_mentioned := None;
               created_at := utcnow env n |}])
  end.

(** The loop over the names.  Each supplier is committed before its initial
    request is generated; when the generation raises, what was committed
    stays. *)
Fixpoint create_suppliers (env : Env) (opportunity : Opportunity)
    (requirements : Requirements) (additional_requirements : string)
    (session : Z) (names : list string) (n : nat)
    (pending : option (Z * string * nat)) (db : DB) : http * DB :=
  match names with
  | [] => (OK, flush env pending db)
  | name :: rest =>
      let db0 := flush env pending db in
      let id := next_key (suppliers db0) in
      let supplier :=
        {| session_id := session;
           company_name := name;
           industry := default "general" (industry_category requirements);
           initial_price := None;
           final_price := None;
           status := "pending";
           negotiation_round := 0 |} in
      let db1 := set_suppliers db0 (<[id := supplier]> (suppliers db0)) in
      match complete_initial_request (llm env) opportunity requirements name
              additional_requirements with
      | None => (SERVER_ERROR, db1)
      | Some text =>
          create_suppliers env opportunity requirements
            additional_requirements session rest (S n)
            (Some (id, text, n)) db1
      end
  end.

Definition create_negotiation (env : Env) (db : DB)
    (opportunity : Opportunity) (target : float)
    (additional_requirements : string) (num_suppliers : Z) : http * DB :=
  match extract_requirements_from_opportunity env opportunity with
  | None => (SERVER_ERROR, db)
  | Some requirements =>
      let id := next_key (sessions db) in
      let session :=
        {| opportunity_id := opp_id opportunity;
           opportunity_title :=
             default "Government Contract" (opp_title opportunity);
           opportunity_data := opp_dump opportunity;
           target_price := target;
           extracted_requirements := json_dumps requirements;
           session_status := "active" |} in
      let db1 :=
        {| sessions := <[id := session]> (sessions db);
           suppliers := suppliers db;
           messages := messages db |} in
      create_suppliers env opportunity requirements additional_requirements
        id (supplier_names requirements num_suppliers) 0 None db1
  end.

(** The requests of the negotiation interface, and the stores that a
    sequence of them can produce from the empty one. *)
Inductive request : Type :=
| Create (opportunity : Opportunity) (target : float)
         (additional_requirements : string) (num_suppliers : Z)
| Respond (session_id supplier_id : Z)
| Accept (session_id supplier_id : Z).

Definition handle (env : Env) (db : DB) (r : request) : http * DB :=
  match r with
  | Create o t a n => create_negotiation env db o t a n
  | Respond s i => respond_to_supplier env db s i
  | Accept s i => accept_quote db s i
  end.

Inductive reachable : DB -> Prop :=
| reach_empty : reachable empty_db
| reach_step env db r : reachable db -> reachable (handle env db r).2.

End Routes.

(** *** [get_negotiation_status] *)

(** The dictionary ['metrics'] of a supplier: four formatted numbers. *)
Record Metrics : Type := {
  metrics_initial_price : string;
  metrics_final_price : string;
  metrics_savings : string;
  metrics_savings_percent : string
}.

(** The truth value of a nullable float column. *)
Definition is_set (x : option float) : bool :=
  match x with
  | Some v => truthy v
  | None => false
  end.

(** The dictionary itself.  [None]: building it raises, on a null price
    ([TypeError]) or on a division by zero. *)
Definition build_metrics (initial final : option float) : option Metrics :=
  match initial, final with
  | Some i, Some f =>
      match py_div (fsub i f) i with
      | Some ratio =>
          Some {| metrics_initial_price := format_fixed 2 i;
                  metrics_final_price := format_fixed 2 f;
                  metrics_savings := format_fixed 2 (fsub i f);
                  metrics_savings_percent :=
                    format_fixed 1 (fmul ratio (of_int 100)) |}
      | None => None
      end
  | _, _ => None
  end.

(** The conditional expression: the dictionary is built only for a
    completed supplier with both prices set, and is [None] otherwise.  The
    outer [None] is an exception. *)
Definition supplier_metrics (s : Supplier) : option (option Metrics) :=
  if String.eqb (status s) "completed" && is_set (initial_price s)
     && is_set (final_price s)
  then match build_metrics (initial_price s) (final_price s) with
       | Some m => Some (Some m)
       | None => None
       end
  else Some None.

(** The entry of a supplier in the snapshot. *)
Record SupplierStatus : Type := {
  entry_id : Z;
  entry_company_name : string;
  entry_status : string;
  entry_negotiation_round : Z;
  entry_messages : list Message;
  entry_metrics : option Metrics
}.

(** The relationship [session.suppliers]: the suppliers of the session, by
    identifier. *)
Definition suppliers_of (db : DB) (session : Z) : list (Z * Supplier) :=
  List.filter (fun row => session_id row.2 =? session)
    (map_to_list (suppliers db)).

Fixpoint status_entries (db : DB) (rows : list (Z * Supplier))
    : option (list SupplierStatus) :=
  match rows with
  | [] => Some []
  | (id, s) :: rest =>
      match supplier_metrics s, status_entries db rest with
      | Some metrics, Some entries =>
          Some ({| entry_id := id;
                   entry_company_name := company_name s;
                   entry_status := status s;
                   entry_negotiation_round := negotiation_round s;
                   entry_messages := messages_of db id;
                   entry_metrics := metrics |} :: entries)
      | _, _ => None
      end
  end.

(** The reply: the status, and with [OK] the session and the entries of its
    suppliers. *)
Definition get_negotiation_status (db : DB) (session_id : Z)
    : http * option (NegotiationSession * list SupplierStatus) :=
  match sessions db !! session_id with
  | None => (NOT_FOUND, None)
  | Some session =>
      match status_entries db (suppliers_of db session_id) with
      | Some entries => (OK, Some (session, entries))
      | None => (SERVER_ERROR, None)
      end
  end.

End Quote.

(* ================================================================== *)
(** ** [app.py]: parsing the reply of the document analysis *)
(* ================================================================== *)

Module App.

(** A computation that returns or raises. *)
Inductive exn (A : Type) : Type :=
| Return (a : A)
| Raise (e : string).
Arguments Return {A} a.
Arguments Raise {A} e.

Section Analysis.

(** The parsed document, and the two library calls of [parse_raw_output]:
    the [unicode_escape] codec and [json.loads], each giving the message of
    the exception when it raises. *)
Variable json : Type.
Variable unicode_escape : string -> exn string.
Variable json_loads : string -> exn json.

Definition quote_char : ascii := ascii_of_nat 34.

Definition starts_with_quote (s : string) : bool :=
  match s with
  | String c _ => Ascii.eqb c quote_char
  | EmptyString => false
  end.

Fixpoint ends_with_quote (s : string) : bool :=
  match s with
  | EmptyString => false
  | String c EmptyString => Ascii.eqb c quote_char
  | String _ s' => ends_with_quote s'
  end.

(** [s[1:-1]] *)
Definition strip_ends (s : string) : string :=
  substring 1 (String.length s - 2) s.

(** The body of the [try] of [parse_raw_output]. *)
Definition parse_steps (raw_output : string) : exn json :=
  match unicode_escape raw_output with
  | Raise e => Raise e
  | Return cleaned_str =>
      let cleaned_str :=
        if starts_with_quote cleaned_str && ends_with_quote cleaned_str
        then strip_ends cleaned_str else cleaned_str in
      json_loads cleaned_str
  end.

(** [parse_raw_output]: [except Exception] prints the exception and returns
    [None]. *)
Definition parse_raw_output (raw_output : string) : exn (option json) :=
  match parse_steps raw_output with
  | Return result => Return (Some result)
  | Raise _ => Return None
  end.

(** What the view hands to the framework: a JSON body with a status, or a
    bare value. *)
Inductive view_result : Type :=
| Jsonify (body : list (string * string)) (code : Z)
| Value (v : option json).

(** The outside of [analyze_solicitations]: the files that could be fetched
    and uploaded, and the reply of the model to them (its text, or the
    exception of the call). *)
Record Services : Type := {
  download_and_upload_files : list string -> list string;
  responses_create : list string -> exn string
}.

(** [urls] is [None] when the field is missing or is not a list. *)
Definition analyze_solicitations (svc : Services) (urls : option (list string))
    : view_result :=
  match urls with
  | None | Some [] =>
      Jsonify [("error", "Missing or invalid 'urls' array.")] 400
  | Some urls =>
      match download_and_upload_files svc urls with
      | [] => Jsonify [("error", "Failed to upload any files.")] 500
      | file_inputs =>
          match responses_create svc file_inputs with
          | Raise e => Jsonify [("error", e)] 500
          | Return raw_output =>
              match parse_raw_output raw_output with
              | Return parsed_data => Value parsed_data
              | Raise e =>
                  Jsonify [("error", "Failed to parse JSON");
                           ("details", e);
                           ("raw_output", raw_output)] 502
              end
          end
      end
  end.

End Analysis.

(** *** [download_and_upload_files] *)

(** The loop over the urls.  [fetch_and_upload url] is the identifier the
    provider gives the uploaded file, or [None] when the download or the
    upload raises: the error is printed and the url is skipped. *)
Fixpoint download_and_upload_each (fetch_and_upload : string -> option string)
    (urls : list string) : list string :=
  match urls with
  | [] => []
  | url :: rest =>
      match fetch_and_upload url with
      | Some file_id =>
          file_id :: download_and_upload_each fetch_and_upload rest
      | None => download_and_upload_each fetch_and_upload rest
      end
  end.

(** The services of a request, with the loop in the place of its result. *)
Definition services_with (fetch_and_upload : string -> option string)
    (create : list string -> exn string) : Services :=
  {| download_and_upload_files := download_and_upload_each fetch_and_upload;
     responses_create := create |}.

End App.

(* ================================================================== *)
(** ** Notions the properties are stated with *)
(* ================================================================== *)

Import PyFloat PyStr Re Quote.

Definition newline : string := String (ascii_of_nat 10) EmptyString.

(** The message of the specification's example, three lines. *)
Definition two_totals : string :=
  "Item A: $50" ++ newline ++ "Total: $1,200" ++ newline ++ "Total: $1,500".

(** A pattern is passed over on a text when it has no match there. *)
Definition no_match (p : regex) (text : string) : Prop :=
  findall p text = [].

(** The loop also passes over a pattern whose last match is no number. *)
Definition passed_over (p : regex) (text : string) : Prop :=
  labelled_price p text = None.

(** The rule of the specification for the labelled pass: the first pattern
    with a match decides, by its last match. *)
Definition first_match_decides (content : string) : Prop :=
  forall pre p post,
    patterns = (pre ++ p :: post)%list ->
    (forall q, In q pre -> no_match q (lower content)) ->
    ~ no_match p (lower content) ->
    exists m v,
      last_item (findall p (lower content)) = Some m /\
      py_float (remove_commas m) = Some v /\
      extract_price_from_message content = Some v.

Definition between (lo hi : float) (x : float) : bool :=
  fge x lo && flt x hi.

(** The price a reply is filed under: the one read in its text, else the
    suggested one. *)
Definition quoted (response : string) (price : float) : float :=
  or_else (extract_price_from_message response) price.

(** The supplier row after the request, from the row before it. *)
Definition advanced (first : bool) (s : Supplier) (response : string)
    (price : float) : Supplier :=
  let s1 := if first then with_initial_quote s price else s in
  if negotiation_round s <? 2
  then with_round s1 (negotiation_round s + 1)
  else with_final_price s1 (quoted response price).

(** The final price [accept_quote] leaves, from the row before it. *)
Definition accepted_price (db : DB) (id : Z) (s : Supplier) : option float :=
  match latest (supplier_sent db id) with
  | Some m =>
      match price_mentioned m with
      | Some p => if truthy p then Some p else final_price s
      | None => final_price s
      end
  | None => final_price s
  end.

(** A row as [create_negotiation] inserts it. *)
Definition fresh_row (s : Supplier) : Prop :=
  negotiation_round s = 0 /\ final_price s = None /\ initial_price s = None
  /\ status s = "pending".

Definition rounds_bounded (db : DB) : Prop :=
  forall id s, suppliers db !! id = Some s -> 0 <= negotiation_round s <= 2.

Section Statements.

Variable hash : string -> Z.
Variable json_loads : string -> option Requirements.

(** The specification's round progression: two advances from round 0 end at
    round 2 with the final price set. *)
Definition two_advances_finalise : Prop :=
  forall (env1 env2 : Env) (db db1 db2 : DB) (sid id : Z) (s : Supplier),
    suppliers db !! id = Some s ->
    negotiation_round s = 0 ->
    count_supplier_sent db id = 0 ->
    respond_to_supplier hash json_loads env1 db sid id = (OK, db1) ->
    respond_to_supplier hash json_loads env2 db1 sid id = (OK, db2) ->
    exists s2,
      suppliers db2 !! id = Some s2 /\
      negotiation_round s2 = 2 /\
      final_price s2 <> None /\
      status s2 = "negotiating".

(** The specification's invariant on the final price, for the advance: once
    the final price is set, a later advance leaves it as it is. *)
Definition advance_keeps_final_price : Prop :=
  forall (env : Env) (db db' : DB) (sid id : Z) (s : Supplier),
    suppliers db !! id = Some s ->
    final_price s <> None ->
    respond_to_supplier hash json_loads env db sid id = (OK, db') ->
    exists s', suppliers db' !! id = Some s' /\ final_price s' = final_price s.

End Statements.

(** A negotiation to run the routes on: one opportunity with a target price
    of 1000 and two suppliers, then a second one with a target of 50000 and
    one supplier. *)
Module Sample.

Definition hash (s : string) : Z := 7919 * Z.of_nat (String.length s) - 40503.

Definition requirements : Requirements :=
  {| product_service := "Ruggedized laptops";
     quantity := "200";
     delivery_location := "Denver, CO";
     key_requirements :=
       ["TAA compliant"; "Three-year warranty"; "Delivery within 30 days"];
     certifications_needed := [];
     timeline := "30 days";
     industry_category := Some "tech";
     suggested_suppliers := Some ["Acme Federal"; "Summit Supply"] |}.

(** A codec that knows one document. *)
Definition dumps (_ : Requirements) : string := "<requirements>".
Definition loads (s : string) : option Requirements :=
  if String.eqb s "<requirements>" then Some requirements else None.

Definition opportunity : Opportunity :=
  {| opp_id := "SAM-0001";
     opp_title := Some "Laptop refresh";
     opp_dump := "<opportunity>" |}.

(** The supplier quotes 1,700 then 1,400, and [final] from round 2 on. *)
Definition service (final : string) : LLM :=
  {| complete_requirements := fun _ => Some "<requirements>";
     complete_initial_request := fun _ _ _ _ => Some "Please send a quote.";
     complete_supplier_response := fun _ _ _ round _ =>
       Some (if round =? 0 then "Our total: $1,700.00"
             else if round =? 1 then "Revised total: $1,400.00"
             else final);
     complete_negotiation_response := fun _ _ _ =>
       Some "Pricing exceeds our budget." |}.

Definition env (final : string) (now : Z) : Env :=
  {| llm := service final; utcnow := fun n => now + Z.of_nat n |}.

Definition best_offer : string := "Best and final total: $1,200.00".
Definition better_offer : string := "New total: $1,150.00".

Definition created : DB :=
  (create_negotiation loads dumps (env best_offer 0) empty_db opportunity
     (of_int 1000) "" 2).2.

Definition two_sessions : DB :=
  (create_negotiation loads dumps (env best_offer 5) created opportunity
     (of_int 50000) "" 1).2.

Definition advance (final : string) (now : Z) (db : DB) : DB :=
  (respond_to_supplier hash loads (env final now) db 1 1).2.

(** The first supplier as it is created. *)
Definition acme : Supplier :=
  {| session_id := 1;
     company_name := "Acme Federal";
     industry := "tech";
     initial_price := None;
     final_price := None;
     status := "pending";
     negotiation_round := 0 |}.

Definition after1 : DB := advance best_offer 10 created.
Definition after2 : DB := advance best_offer 20 after1.
Definition after3 : DB := advance best_offer 30 after2.
Definition after4 : DB := advance better_offer 40 after3.

End Sample.

(** A document analysis to run [analyze_solicitations] on: every file
    uploads, and the model replies with a text that is not JSON. *)
Module DocSample.

(** A decoder for the texts without a backslash, which decode to
    themselves. *)
Definition decode (s : string) : App.exn string :=
  match index 0 "\" s with
  | None => App.Return s
  | Some _ => App.Raise "unsupported escape"
  end.

(** A parser that accepts the texts of an object and keeps them as they
    are. *)
Definition parse (s : string) : App.exn string :=
  match s with
  | String "{" _ => App.Return s
  | _ => App.Raise "Expecting value"
  end.

Definition services : App.Services :=
  {| App.download_and_upload_files := fun urls => map (fun _ => "file-1") urls;
     App.responses_create := fun _ => App.Return "not json" |}.

End DocSample.

(* ================================================================== *)
(** ** Notions for the invariants of the stores and the other routes *)
(* ================================================================== *)

(** Every supplier belongs to a session of the store and every message to
    a supplier of the store. *)
Definition well_linked (db : DB) : Prop :=
  (forall id s, suppliers db !! id = Some s ->
                is_Some (sessions db !! session_id s)) /\
  (forall m, In m (messages db) -> is_Some (suppliers db !! supplier_id m)).

(** A message as the routes file it: a reply of the supplier with a price,
    or a message of the buyer without one. *)
Definition filed (m : Message) : Prop :=
  (sender m = "supplier" /\ price_mentioned m <> None) \/
  (sender m = "buyer" /\ price_mentioned m = None).

(** The identifiers of the messages grow along the table. *)
Fixpoint ids_increasing (l : list Message) : Prop :=
  match l with
  | [] => True
  | m :: l' => Forall (fun m' => message_id m < message_id m') l'
               /\ ids_increasing l'
  end.

(** The row of a supplier sums up its replies: the round is their number,
    capped at 2; the initial price is set from the first reply on; a pending
    supplier has not replied. *)
Definition row_tracks_replies (db : DB) (id : Z) (s : Supplier) : Prop :=
  negotiation_round s = Z.min 2 (count_supplier_sent db id) /\
  (initial_price s = None <-> count_supplier_sent db id = 0) /\
  (status s = "pending" -> count_supplier_sent db id = 0) /\
  (status s = "pending" \/ status s = "negotiating" \/ status s = "completed").

Definition rows_track_replies (db : DB) : Prop :=
  forall id s, suppliers db !! id = Some s -> row_tracks_replies db id s.

(** The row of a new supplier. *)
Definition new_row (rq : Requirements) (session : Z) (name : string)
    : Supplier :=
  {| session_id := session; company_name := name;
     industry := default "general" (industry_category rq);
     initial_price := None; final_price := None;
     status := "pending"; negotiation_round := 0 |}.

(** What the routes keep true of a store. *)
Definition store_ok (db : DB) : Prop :=
  well_linked db /\ Forall filed (messages db) /\
  ids_increasing (messages db) /\ rows_track_replies db.

(** The name that pads the list at position [k], counted from 0. *)
Definition placeholder (k : nat) : string :=
  "Qualified Contractor #" ++ str_of_int (Z.of_nat k + 1).

(** The supplier a pending message is for. *)
Definition pending_ids (pending : option (Z * string * nat)) : list Z :=
  match pending with
  | Some (i, _, _) => [i]
  | None => []
  end.

(** The session row of a creation request. *)
Definition new_session (json_dumps : Requirements -> string)
    (o : Opportunity) (target : float) (rq : Requirements)
    : NegotiationSession :=
  {| opportunity_id := opp_id o;
     opportunity_title := default "Government Contract" (opp_title o);
     opportunity_data := opp_dump o;
     target_price := target;
     extracted_requirements := json_dumps rq;
     session_status := "active" |}.

(** The text [s] between two quote characters. *)
Definition quoted_text (s : string) : string :=
  String App.quote_char (s ++ String App.quote_char EmptyString).

(** A float that is a number and is not negative. *)
Definition non_negative (v : float) : Prop :=
  match v with
  | S754_zero false | S754_infinity false | S754_finite false _ _ => True
  | _ => False
  end.

(** Further cases to run the routes on. *)
Module Cases.

(** A service that extracts the requirements and then fails to write. *)
Definition silent : LLM :=
  {| complete_requirements := fun _ => Some "<requirements>";
     complete_initial_request := fun _ _ _ _ => None;
     complete_supplier_response := fun _ _ _ _ _ => None;
     complete_negotiation_response := fun _ _ _ => None |}.

Definition silent_env : Env :=
  {| llm := silent; utcnow := fun n => Z.of_nat n |}.

(** The sample negotiation after its four advances and the acceptance of the
    first supplier. *)
Definition accepted : DB := (accept_quote Sample.after4 1 1).2.

(** Of the documents, only the notice can be fetched. *)
Definition fetch (url : string) : option string :=
  if String.eqb url "https://sam.gov/notice.pdf" then Some "file-1" else None.

End Cases.

(* ================================================================== *)
(** ** Properties of the price extractor *)
(* ================================================================== *)

Section Ordering.

Lemma fgt_irrefl (x : float) : fgt x x = false.
Proof.
  unfold fgt, SFltb, SFcompare.
  destruct x as [s|s| |s m e]; try destruct s; try reflexivity;
    rewrite Z.compare_refl;
    change (PosDef.Pos.compare_cont Eq m m) with (Pos.compare m m);
    rewrite Pos.compare_refl; reflexivity.
Qed.

Lemma fgt_false_trans (y m m' : float) :
  fgt y m = false -> fgt m' m = true -> fgt y m' = false.
Proof.
  unfold fgt, SFltb, SFcompare.
  destruct y as [sy|sy| |sy my ey], m as [sm|sm| |sm mm em],
           m' as [sm'|sm'| |sm' mm' em'];
    repeat match goal with b : bool |- _ => destruct b end; try congruence;
    repeat match goal with
    | |- context [Z.compare ?a ?b] => destruct (Z.compare_spec a b)
    | |- context [PosDef.Pos.compare_cont Eq ?a ?b] =>
        change (PosDef.Pos.compare_cont Eq a b) with (Pos.compare a b);
        destruct (Pos.compare_spec a b)
    end; cbn [CompOpp]; try congruence; try lia.
Qed.

Lemma max_from_In (l : list float) (x : float) :
  In (max_from x l) (x :: l).
Proof.
  revert x. induction l as [|y l IH]; intros x; [left; reflexivity|].
  unfold max_from in *. cbn [fold_left].
  destruct (fgt y x).
  - right. apply IH.
  - destruct (IH x) as [H|H]; [left; exact H | right; right; exact H].
Qed.

Lemma max_from_above (l : list float) (x w : float) :
  fgt w x = false -> fgt w (max_from x l) = false.
Proof.
  revert x. induction l as [|y l IH]; intros x Hwx; [exact Hwx|].
  unfold max_from in *. cbn [fold_left].
  destruct (fgt y x) eqn:Hyx.
  - apply IH. exact (fgt_false_trans _ _ _ Hwx Hyx).
  - apply IH. exact Hwx.
Qed.

Lemma max_from_upper (l : list float) (x w : float) :
  In w (x :: l) -> fgt w (max_from x l) = false.
Proof.
  revert x. induction l as [|y l IH]; intros x Hw.
  - destruct Hw as [->|[]]. apply fgt_irrefl.
  - destruct Hw as [->|[->|Hw]].
    + apply max_from_above, fgt_irrefl.
    + unfold max_from. cbn [fold_left].
      apply (max_from_above l). destruct (fgt w x) eqn:E.
      * apply fgt_irrefl.
      * exact E.
    + unfold max_from. cbn [fold_left]. apply (IH _). right. exact Hw.
Qed.

Lemma py_max_spec (l : list float) (v : float) :
  py_max l = Some v -> In v l /\ forall w, In w l -> fgt w v = false.
Proof.
  destruct l as [|x l]; [discriminate|].
  intros [= <-]. split; [apply max_from_In|].
  intros w Hw. apply max_from_upper. exact Hw.
Qed.

Lemma py_max_None (l : list float) : py_max l = None <-> l = [].
Proof. destruct l; split; intros H; try reflexivity; discriminate. Qed.

End Ordering.

Lemma large_amounts_In (toks : list string) (v : float) :
  In v (large_amounts toks) <->
  exists tok, In tok toks /\ py_float (remove_commas tok) = Some v /\
              fgt v (of_int 100) = true.
Proof.
  induction toks as [|a toks IH]; cbn [large_amounts].
  - split; [intros [] | intros (tok & [] & _)].
  - destruct (py_float (remove_commas a)) as [val|] eqn:Ea.
    + destruct (fgt val (of_int 100)) eqn:Eg.
      * split.
        -- intros [<-|H]; [exists a; auto using in_eq|].
           apply IH in H as (tok & Hin & H). exists tok. split; [right|]; auto.
        -- intros (tok & [<-|Hin] & Hp & Hg).
           ++ left. congruence.
           ++ right. apply IH. exists tok. auto.
      * rewrite IH. split; intros (tok & Hin & Hp & Hg).
        -- exists tok. split; [right|]; auto.
        -- destruct Hin as [<-|Hin]; [congruence|exists tok; auto].
    + rewrite IH. split; intros (tok & Hin & Hp & Hg).
      * exists tok. split; [right|]; auto.
      * destruct Hin as [<-|Hin]; [congruence|exists tok; auto].
Qed.

Lemma first_labelled_none (ps : list regex) (text : string) :
  (forall p, In p ps -> passed_over p text) -> first_labelled ps text = None.
Proof.
  induction ps as [|p ps IH]; intros H; [reflexivity|].
  cbn [first_labelled]. rewrite (H p (or_introl eq_refl)).
  apply IH. intros q Hq. apply H. right. exact Hq.
Qed.

Lemma no_match_passed_over (p : regex) (text : string) :
  no_match p text -> passed_over p text.
Proof. unfold no_match, passed_over, labelled_price. intros ->. reflexivity. Qed.

Lemma first_labelled_app (pre post : list regex) (p : regex) (text : string)
    (v : float) :
  (forall q, In q pre -> passed_over q text) ->
  labelled_price p text = Some v ->
  first_labelled (pre ++ p :: post) text = Some v.
Proof.
  induction pre as [|q pre IH]; intros Hpre Hp; cbn [app first_labelled].
  - rewrite Hp. reflexivity.
  - rewrite (Hpre q (or_introl eq_refl)). apply IH; [|exact Hp].
    intros r Hr. apply Hpre. right. exact Hr.
Qed.

Ltac each_pattern H :=
  repeat (destruct H as [<-|H]; [vm_compute; reflexivity|]); destruct H.

(** C3 (as amended): the labelled pass returns the number read from the last
    match of the first pattern, in the order of the list, whose last match is
    a number once its commas are removed; the patterns before it either have
    no match or end on a match that is no number.  On the three-line example
    the result is 1500.0. *)
Theorem labelled_pass_last_match_of_first_numeric_pattern :
  (forall (content : string) (pre post : list regex) (p : regex)
          (m : string) (v : float),
     patterns = (pre ++ p :: post)%list ->
     (forall q, In q pre -> passed_over q (lower content)) ->
     last_item (findall p (lower content)) = Some m ->
     py_float (remove_commas m) = Some v ->
     extract_price_from_message content = Some v)
  /\ extract_price_from_message two_totals = Some (of_int 1500).
Proof.
  split; [|vm_compute; reflexivity].
  intros content pre post p m v Hps Hpre Hm Hv.
  unfold extract_price_from_message. rewrite Hps.
  rewrite (first_labelled_app pre post p (lower content) v Hpre);
    [reflexivity|].
  unfold labelled_price. rewrite Hm. exact Hv.
Qed.

Lemma labelled_pass_witness :
  extract_price_from_message two_totals = Some (of_int 1500).
Proof.
  apply (proj1 labelled_pass_last_match_of_first_numeric_pattern
           two_totals [] (tl patterns) pattern_total "1,500" (of_int 1500)).
  - reflexivity.
  - intros q [].
  - vm_compute. reflexivity.
  - vm_compute. reflexivity.
Defined.

(** C3 (as stated) fails: in this sentence the first pattern with a match is
    the first of the list, its only match captures a lone comma, and the
    price comes from the last pattern. *)
Lemma first_match_decides_counterexample :
  ~ first_match_decides "In total, the quoted price: $5,000.".
Proof.
  intros H.
  destruct (H [] pattern_total (tl patterns) eq_refl) as (m & v & Hm & Hv & _).
  - intros q [].
  - vm_compute. discriminate.
  - vm_compute in Hm. injection Hm as <-. vm_compute in Hv. discriminate.
Qed.

(** C4: when no labelled pattern has a match, the candidates are the amounts
    of the text, as written, that are numbers greater than 100; the result is
    a candidate that no candidate exceeds, and it is [None] exactly when there
    is no candidate. *)
Theorem fallback_returns_largest_amount :
  (forall content : string,
     (forall p, In p patterns -> no_match p (lower content)) ->
     let candidates := large_amounts (findall amount content) in
     (forall v, In v candidates <->
        exists tok, In tok (findall amount content) /\
                    py_float (remove_commas tok) = Some v /\
                    fgt v (of_int 100) = true) /\
     (extract_price_from_message content = None <-> candidates = []) /\
     (forall v, extract_price_from_message content = Some v ->
        In v candidates /\ forall w, In w candidates -> fgt w v = false))
  /\ extract_price_from_message "$250 shipping, $4000 unit"
     = Some (of_int 4000)
  /\ extract_price_from_message "$5 fee" = None.
Proof.
  split; [|split; vm_compute; reflexivity].
  intros content Hno candidates.
  assert (Hext : extract_price_from_message content = py_max candidates).
  { unfold extract_price_from_message.
    rewrite first_labelled_none; [reflexivity|].
    intros p Hp. apply no_match_passed_over, Hno, Hp. }
  split; [intros v; apply large_amounts_In|].
  rewrite Hext. split; [apply py_max_None|apply py_max_spec].
Qed.

Lemma fallback_witness :
  extract_price_from_message "$250 shipping, $4000 unit" = None <->
  large_amounts (findall amount "$250 shipping, $4000 unit") = [].
Proof.
  refine (proj1 (proj2 (proj1 fallback_returns_largest_amount
                          "$250 shipping, $4000 unit" _))).
  intros p Hp. unfold patterns in Hp. cbn [In] in Hp. each_pattern Hp.
Defined.

(** C10: the dollar sign of the fallback pattern is optional.  The sentence
    below has no dollar sign and no labelled total, and its bare number 365
    comes back as the price. *)
Theorem bare_number_taken_as_price :
  let content := "ships in 365 days" in
  String.index 0 "$" content = None /\
  (forall p, In p patterns -> no_match p (lower content)) /\
  findall amount content = ["365"] /\
  extract_price_from_message content = Some (of_int 365) /\
  fgt (of_int 365) (of_int 100) = true.
Proof.
  intros content. split; [vm_compute; reflexivity|].
  split; [|repeat split; vm_compute; reflexivity].
  intros p Hp. unfold patterns in Hp. cbn [In] in Hp. each_pattern Hp.
Qed.

(* ================================================================== *)
(** ** The pricing strategy *)
(* ================================================================== *)

Section Strategy.

Variable hash : string -> Z.

(** A check on every integer below [n], run on the list of them. *)
Lemma below_cases (P : Z -> bool) (n : nat) :
  forallb P (map Z.of_nat (seq 0 n)) = true ->
  forall k, 0 <= k < Z.of_nat n -> P k = true.
Proof.
  intros H k Hk. rewrite forallb_forall in H. apply H.
  apply in_map_iff. exists (Z.to_nat k). split; [lia|].
  apply in_seq. lia.
Qed.

Lemma opening_multiplier (k : Z) :
  0 <= k < 30 ->
  between (of_decimal 150 2) (of_decimal 180 2)
          (fadd (of_decimal 15 1) (int_truediv k 100)) = true.
Proof.
  apply (below_cases
           (fun k => between (of_decimal 150 2) (of_decimal 180 2)
                       (fadd (of_decimal 15 1) (int_truediv k 100))) 30).
  vm_compute. reflexivity.
Qed.

Lemma second_multiplier (k : Z) :
  0 <= k < 20 ->
  between (of_decimal 125 2) (of_decimal 145 2)
          (fadd (of_decimal 125 2) (int_truediv k 100)) = true.
Proof.
  apply (below_cases
           (fun k => between (of_decimal 125 2) (of_decimal 145 2)
                       (fadd (of_decimal 125 2) (int_truediv k 100))) 20).
  vm_compute. reflexivity.
Qed.

Lemma final_multiplier (k : Z) :
  0 <= k < 15 ->
  between (of_decimal 110 2) (of_decimal 125 2)
          (fadd (of_decimal 110 2) (int_truediv k 100)) = true.
Proof.
  apply (below_cases
           (fun k => between (of_decimal 110 2) (of_decimal 125 2)
                       (fadd (of_decimal 110 2) (int_truediv k 100))) 15).
  vm_compute. reflexivity.
Qed.

(** C7: the multiplier is in [1.50, 1.80) at round 0, in [1.25, 1.45) at
    round 1 and in [1.10, 1.25) from round 2 on, whatever the company name
    and its hash; the suggested price is the target price times the
    multiplier, and it is the price [generate_supplier_response] returns. *)
Theorem multiplier_ranges_and_suggested_price
    (company_name : string) (round_num : Z) (target : float) :
  let m := price_multiplier hash company_name round_num in
  (round_num = 0 ->
   fge m (of_decimal 150 2) = true /\ flt m (of_decimal 180 2) = true) /\
  (round_num = 1 ->
   fge m (of_decimal 125 2) = true /\ flt m (of_decimal 145 2) = true) /\
  (2 <= round_num ->
   fge m (of_decimal 110 2) = true /\ flt m (of_decimal 125 2) = true) /\
  suggested_price hash company_name round_num target = fmul target m /\
  (forall env requirements msgs text price,
     generate_supplier_response hash env company_name requirements msgs
       round_num target = Some (text, price) ->
     price = fmul target m).
Proof.
  intros m. unfold m, price_multiplier.
  split; [intros ->|split; [intros ->|split; [intros Hr|split]]].
  - cbn [Z.eqb].
    pose proof (opening_multiplier (hash company_name mod 30)
                  (Z.mod_pos_bound _ 30 eq_refl)) as H.
    apply andb_true_iff in H. exact H.
  - cbn [Z.eqb].
    pose proof (second_multiplier _ (Z.mod_pos_bound
                  (hash (company_name ++ str_of_int 1)) 20 eq_refl)) as H.
    apply andb_true_iff in H. exact H.
  - destruct (Z.eqb_spec round_num 0); [lia|].
    destruct (Z.eqb_spec round_num 1); [lia|].
    pose proof (final_multiplier _ (Z.mod_pos_bound
                  (hash (company_name ++ str_of_int round_num)) 15 eq_refl))
      as H.
    apply andb_true_iff in H. exact H.
  - reflexivity.
  - intros env requirements msgs text price.
    unfold generate_supplier_response.
    destruct (complete_supplier_response _ _ _ _ _ _); [|discriminate].
    intros [= _ <-]. reflexivity.
Qed.

End Strategy.

(* ================================================================== *)
(** ** The negotiation state machine *)
(* ================================================================== *)

Section Machine.

Variable hash : string -> Z.
Variable json_loads : string -> option Requirements.
Variable json_dumps : Requirements -> string.

Abbreviation respond := (respond_to_supplier hash json_loads).
Abbreviation create := (create_negotiation json_loads json_dumps).
Abbreviation step := (handle hash json_loads json_dumps).
Abbreviation reachable_db := (reachable hash json_loads json_dumps).

(** *** Keys *)

Lemma next_key_above {A} (table : gmap Z A) (k : Z) (x : A) :
  table !! k = Some x -> k < next_key table.
Proof.
  unfold next_key.
  apply (map_fold_weak_ind
           (fun r (m : gmap Z A) =>
              forall k x, m !! k = Some x -> k < 1 + r)
           (fun k _ acc => Z.max k acc) 0).
  - intros j y Hj. rewrite lookup_empty in Hj. discriminate.
  - intros i y m r Hi IH j z Hj.
    destruct (decide (i = j)) as [->|Hne].
    + lia.
    + rewrite lookup_insert_ne in Hj by exact Hne.
      specialize (IH j z Hj). lia.
Qed.

Lemma next_key_fresh {A} (table : gmap Z A) : table !! next_key table = None.
Proof.
  destruct (table !! next_key table) as [x|] eqn:E; [|reflexivity].
  apply next_key_above in E. lia.
Qed.

(** *** What a successful [respond_to_supplier] did *)

Lemma round_with_initial_quote (s : Supplier) (p : float) :
  negotiation_round (with_initial_quote s p) = negotiation_round s.
Proof. reflexivity. Qed.

Lemma respond_ok_inv (env : Env) (db db' : DB) (sid id : Z) :
  respond env db sid id = (OK, db') ->
  exists session s requirements response price msg rest,
    sessions db !! sid = Some session /\
    suppliers db !! id = Some s /\
    json_loads (extracted_requirements session) = Some requirements /\
    generate_supplier_response hash env (company_name s) requirements
      (messages_of db id)
      (if count_supplier_sent db id =? 0 then 0 else negotiation_round s)
      (target_price session) = Some (response, price) /\
    supplier_id msg = id /\ sender msg = "supplier" /\
    content msg = response /\
    price_mentioned msg = Some (quoted response price) /\
    Forall (fun m => sender m = "buyer") rest /\
    sessions db' = sessions db /\
    messages db' = (messages db ++ msg :: rest)%list /\
    suppliers db' =
      <[id := advanced (count_supplier_sent db id =? 0) s response price]>
        (suppliers db).
Proof.
  unfold respond_to_supplier. cbv zeta.
  destruct (sessions db !! sid) as [session|] eqn:Hs; [|discriminate].
  destruct (suppliers db !! id) as [s|] eqn:Hsup; [|discriminate].
  destruct (json_loads _) as [requirements|] eqn:Hj; [|discriminate].
  destruct (generate_supplier_response _ _ _ _ _ _ _) as [[response price]|]
    eqn:Hg; [|discriminate].
  set (first := count_supplier_sent db id =? 0) in *.
  set (s1 := if first then with_initial_quote s price else s).
  assert (Hr : negotiation_round s1 = negotiation_round s)
    by (unfold s1; destruct first; reflexivity).
  rewrite Hr.
  set (msg := {| message_id := next_message_id (messages db);
                 supplier_id := id; sender := "supplier";
                 content := response;
                 price_mentioned :=
                   Some (or_else (extract_price_from_message response) price);
                 created_at := utcnow env 0 |}).
  destruct (negotiation_round s <? 2) eqn:Hlt.
  - destruct (generate_negotiation_response _ _ _ _) as [buyer|];
      [|discriminate].
    intros [= <-].
    eexists session, s, requirements, response, price, msg, [_].
    repeat split; try reflexivity; try assumption.
    + constructor; [reflexivity|constructor].
    + cbn [suppliers]. unfold advanced. rewrite Hlt. reflexivity.
  - intros [= <-].
    exists session, s, requirements, response, price, msg, [].
    repeat split; try reflexivity; try assumption; [constructor|].
    cbn [suppliers]. unfold advanced. rewrite Hlt. reflexivity.
Qed.

(** A request that does not answer [OK] leaves the store as it was. *)
Lemma respond_not_ok (env : Env) (db : DB) (sid id : Z) :
  (respond env db sid id).1 <> OK -> (respond env db sid id).2 = db.
Proof.
  unfold respond_to_supplier. cbv zeta.
  destruct (sessions db !! sid); [|reflexivity].
  destruct (suppliers db !! id); [|reflexivity].
  destruct (json_loads _); [|reflexivity].
  destruct (generate_supplier_response _ _ _ _ _ _ _) as [[response price]|];
    [|reflexivity].
  destruct (_ <? 2).
  - destruct (generate_negotiation_response _ _ _ _); [|reflexivity].
    intros H. exfalso. apply H. reflexivity.
  - intros H. exfalso. apply H. reflexivity.
Qed.

Lemma supplier_sent_app (db : DB) (id : Z) (l l' : list Message) :
  messages db = l ->
  List.filter (from_supplier id) (l ++ l')
  = (List.filter (from_supplier id) l ++ List.filter (from_supplier id) l')%list.
Proof. intros _. apply List.filter_app. Qed.

Lemma buyer_rows_not_supplier_sent (id : Z) (rest : list Message) :
  Forall (fun m => sender m = "buyer") rest ->
  List.filter (from_supplier id) rest = [].
Proof.
  induction 1 as [|m rest Hm _ IH]; [reflexivity|].
  cbn [List.filter]. unfold from_supplier at 1. rewrite Hm.
  rewrite andb_false_r. exact IH.
Qed.

(** The supplier's own messages after a successful request: one more. *)
Lemma respond_ok_sent (env : Env) (db db' : DB) (sid id : Z) :
  respond env db sid id = (OK, db') ->
  exists msg,
    supplier_sent db' id = (supplier_sent db id ++ [msg])%list /\
    exists response price,
      price_mentioned msg = Some (quoted response price).
Proof.
  intros H. apply respond_ok_inv in H
    as (session & s & rq & response & price & msg & rest & _ & _ & _ & _
        & Hid & Hsnd & _ & Hp & Hrest & _ & Hm & _).
  exists msg. split; [|exists response, price; exact Hp].
  unfold supplier_sent. rewrite Hm, List.filter_app. cbn [List.filter].
  rewrite (buyer_rows_not_supplier_sent id rest Hrest).
  unfold from_supplier at 2. rewrite Hid, Hsnd, Z.eqb_refl. reflexivity.
Qed.

Lemma respond_ok_count (env : Env) (db db' : DB) (sid id : Z) :
  respond env db sid id = (OK, db') ->
  count_supplier_sent db' id = count_supplier_sent db id + 1.
Proof.
  intros H. apply respond_ok_sent in H as (msg & E & _).
  unfold count_supplier_sent. rewrite E, length_app. cbn [length]. lia.
Qed.

Lemma respond_ok_supplier (env : Env) (db db' : DB) (sid id : Z)
    (s : Supplier) :
  suppliers db !! id = Some s ->
  respond env db sid id = (OK, db') ->
  exists response price,
    suppliers db' !! id
    = Some (advanced (count_supplier_sent db id =? 0) s response price).
Proof.
  intros Hs H. apply respond_ok_inv in H
    as (session & s0 & rq & response & price & msg & rest & _ & Hs0 & _ & _
        & _ & _ & _ & _ & _ & _ & _ & Hsup).
  assert (s0 = s) as -> by congruence.
  exists response, price. rewrite Hsup. apply lookup_insert_eq.
Qed.

Lemma respond_others (env : Env) (db : DB) (sid id j : Z) :
  j <> id ->
  suppliers (respond env db sid id).2 !! j = suppliers db !! j.
Proof.
  intros Hne.
  destruct (respond env db sid id) as [code db'] eqn:E.
  destruct code.
  - apply respond_ok_inv in E
      as (session & s0 & rq & response & price & msg & rest & _ & _ & _ & _
          & _ & _ & _ & _ & _ & _ & _ & Hsup).
    cbn. rewrite Hsup. apply lookup_insert_ne. congruence.
  - pose proof (respond_not_ok env db sid id) as H. rewrite E in H.
    cbn in *. rewrite H; [reflexivity|discriminate].
  - pose proof (respond_not_ok env db sid id) as H. rewrite E in H.
    cbn in *. rewrite H; [reflexivity|discriminate].
Qed.

(** The fields of an advanced row. *)
Lemma advanced_round (first : bool) (s : Supplier) (r : string) (p : float) :
  negotiation_round (advanced first s r p)
  = if negotiation_round s <? 2 then negotiation_round s + 1
    else negotiation_round s.
Proof.
  unfold advanced.
  destruct (negotiation_round s <? 2), first; reflexivity.
Qed.

Lemma advanced_final_price (first : bool) (s : Supplier) (r : string)
    (p : float) :
  final_price (advanced first s r p)
  = if negotiation_round s <? 2 then final_price s
    else Some (quoted r p).
Proof.
  unfold advanced.
  destruct (negotiation_round s <? 2), first; reflexivity.
Qed.

Lemma advanced_status (first : bool) (s : Supplier) (r : string) (p : float) :
  status (advanced first s r p)
  = if first then "negotiating" else status s.
Proof.
  unfold advanced.
  destruct (negotiation_round s <? 2), first; reflexivity.
Qed.

(** *** [accept_quote] *)

Lemma latest_None (l : list Message) : latest l = None <-> l = [].
Proof.
  destruct l as [|m l]; cbn [latest]; [tauto|].
  split; [|discriminate].
  destruct (latest l) as [m'|]; [destruct (_ <? _)|]; discriminate.
Qed.

Lemma latest_spec (l : list Message) (m : Message) :
  latest l = Some m ->
  In m l /\ forall m', In m' l -> created_at m' <= created_at m.
Proof.
  revert m. induction l as [|a l IH]; intros m; cbn [latest]; [discriminate|].
  destruct (latest l) as [b|] eqn:E.
  - destruct (IH b eq_refl) as [Hin Hmax].
    destruct (Z.ltb_spec (created_at a) (created_at b)); intros [= <-].
    + split; [right; exact Hin|].
      intros m' [<-|Hm']; [lia|apply Hmax, Hm'].
    + split; [left; reflexivity|].
      intros m' [<-|Hm']; [lia|]. specialize (Hmax m' Hm'). lia.
  - apply latest_None in E. subst l. intros [= <-].
    split; [left; reflexivity|]. intros m' [<-|[]]. lia.
Qed.

Lemma supplier_sent_In (db : DB) (id : Z) (m : Message) :
  In m (supplier_sent db id) <->
  In m (messages db) /\ supplier_id m = id /\ sender m = "supplier".
Proof.
  unfold supplier_sent. rewrite List.filter_In. unfold from_supplier.
  rewrite andb_true_iff, Z.eqb_eq, String.eqb_eq. tauto.
Qed.

Lemma accept_inv (db : DB) (sid id : Z) (s : Supplier) :
  suppliers db !! id = Some s ->
  exists s',
    accept_quote db sid id
    = (OK, set_suppliers db (<[id := s']> (suppliers db))) /\
    status s' = "completed" /\
    final_price s' = accepted_price db id s /\
    negotiation_round s' = negotiation_round s /\
    initial_price s' = initial_price s.
Proof.
  intros Hs. unfold accept_quote, accepted_price. rewrite Hs. cbv zeta.
  destruct (latest (supplier_sent db id)) as [m|].
  - destruct (price_mentioned m) as [p|].
    + destruct (truthy p); eexists; (split; [reflexivity|]);
        repeat split; reflexivity.
    + eexists; (split; [reflexivity|]); repeat split; reflexivity.
  - eexists; (split; [reflexivity|]); repeat split; reflexivity.
Qed.

Lemma accept_others (db : DB) (sid id j : Z) :
  j <> id -> suppliers (accept_quote db sid id).2 !! j = suppliers db !! j.
Proof.
  intros Hne. destruct (suppliers db !! id) as [s|] eqn:Hs.
  - destruct (accept_inv db sid id s Hs) as (s' & -> & _).
    cbn. apply lookup_insert_ne. congruence.
  - unfold accept_quote. rewrite Hs. reflexivity.
Qed.

Lemma accept_missing (db : DB) (sid id : Z) :
  suppliers db !! id = None -> accept_quote db sid id = (NOT_FOUND, db).
Proof. intros H. unfold accept_quote. rewrite H. reflexivity. Qed.

(** C2: [accept_quote] on an existing supplier always answers with the
    status set to 'completed'.  When the latest message the supplier sent
    (none of its messages is more recent) carries a price, that price
    replaces the final price, whatever it was; when no message of the
    supplier carries a price, the final price stays.  A price is a non-zero
    float, as the test of the source has it. *)
Theorem accept_completes_and_takes_latest_price
    (db : DB) (sid id : Z) (s : Supplier) :
  suppliers db !! id = Some s ->
  exists db' s',
    accept_quote db sid id = (OK, db') /\
    suppliers db' !! id = Some s' /\
    status s' = "completed" /\
    (forall m p,
       latest (supplier_sent db id) = Some m ->
       price_mentioned m = Some p -> truthy p = true ->
       final_price s' = Some p) /\
    ((forall m p,
        In m (supplier_sent db id) ->
        price_mentioned m = Some p -> truthy p = false) ->
     final_price s' = final_price s) /\
    (forall m,
       latest (supplier_sent db id) = Some m ->
       (In m (messages db) /\ supplier_id m = id /\ sender m = "supplier") /\
       forall m',
         In m' (messages db) -> supplier_id m' = id ->
         sender m' = "supplier" -> created_at m' <= created_at m) /\
    (supplier_sent db id <> [] ->
     exists m, latest (supplier_sent db id) = Some m).
Proof.
  intros Hs.
  destruct (accept_inv db sid id s Hs) as (s' & Hacc & Hst & Hfp & _).
  eexists _, s'. split; [exact Hacc|].
  split; [cbn; apply lookup_insert_eq|].
  split; [exact Hst|].
  rewrite Hfp. unfold accepted_price.
  split; [|split; [|split]].
  - intros m p -> -> ->. reflexivity.
  - intros Hnone.
    destruct (latest (supplier_sent db id)) as [m|] eqn:E; [|reflexivity].
    destruct (price_mentioned m) as [p|] eqn:Ep; [|reflexivity].
    apply latest_spec in E as [Hin _].
    rewrite (Hnone m p Hin Ep). reflexivity.
  - intros m E. apply latest_spec in E as [Hin Hmax].
    split; [apply supplier_sent_In, Hin|].
    intros m' H1 H2 H3. apply Hmax, supplier_sent_In. auto.
  - intros Hne. destruct (latest (supplier_sent db id)) as [m|] eqn:E.
    + exists m. reflexivity.
    + apply latest_None in E. contradiction.
Qed.

(** *** [create_negotiation] *)

Lemma flush_suppliers (env : Env) (pending : option (Z * string * nat))
    (db : DB) :
  suppliers (flush env pending db) = suppliers db.
Proof. destruct pending as [[[i t] n]|]; reflexivity. Qed.

Lemma create_suppliers_rows (env : Env) (o : Opportunity) (rq : Requirements)
    (add : string) (session : Z) (names : list string) :
  forall (n : nat) (pending : option (Z * string * nat)) (db : DB),
    let db' :=
      (create_suppliers env o rq add session names n pending db).2 in
    (forall j s, suppliers db !! j = Some s -> suppliers db' !! j = Some s) /\
    (forall j s', suppliers db' !! j = Some s' ->
                  suppliers db !! j = Some s' \/
                  (suppliers db !! j = None /\ fresh_row s')).
Proof.
  induction names as [|name rest IH]; intros n pending db; cbn [create_suppliers].
  - cbn. rewrite flush_suppliers. split; [auto|]. intros j s' H. left. exact H.
  - cbv zeta.
    set (db0 := flush env pending db).
    set (id := next_key (suppliers db0)).
    set (row := {| session_id := session; company_name := name;
                   industry := default "general" (industry_category rq);
                   initial_price := None; final_price := None;
                   status := "pending"; negotiation_round := 0 |}).
    set (db1 := set_suppliers db0 (<[id := row]> (suppliers db0))).
    assert (Hfresh : suppliers db !! id = None).
    { unfold id, db0. rewrite flush_suppliers. apply next_key_fresh. }
    assert (Hkeep : forall j s, suppliers db !! j = Some s ->
                                suppliers db1 !! j = Some s).
    { intros j s Hj. unfold db1. cbn [suppliers set_suppliers].
      unfold db0. rewrite flush_suppliers.
      rewrite lookup_insert_ne; [exact Hj|]. intros <-. congruence. }
    assert (Hnew : forall j s', suppliers db1 !! j = Some s' ->
                     suppliers db !! j = Some s' \/
                     (suppliers db !! j = None /\ fresh_row s')).
    { intros j s'. unfold db1. cbn [suppliers set_suppliers].
      unfold db0. rewrite flush_suppliers.
      destruct (decide (id = j)) as [<-|Hne].
      - rewrite lookup_insert_eq. intros [= <-]. right.
        split; [exact Hfresh|]. repeat split.
      - rewrite lookup_insert_ne by exact Hne. auto. }
    destruct (complete_initial_request _ _ _ _ _) as [text|].
    + destruct (IH (S n) (Some (id, text, n)) db1) as [IH1 IH2].
      split.
      * intros j s Hj. apply IH1, Hkeep, Hj.
      * intros j s' Hj. destruct (IH2 j s' Hj) as [H|[H Hrow]].
        -- apply Hnew, H.
        -- right. split; [|exact Hrow].
           destruct (suppliers db !! j) as [s|] eqn:E; [|reflexivity].
           rewrite (Hkeep j s E) in H. discriminate.
    + cbn. split; [exact Hkeep|exact Hnew].
Qed.

Lemma create_rows (env : Env) (db : DB) (o : Opportunity) (target : float)
    (add : string) (num : Z) :
  let db' := (create env db o target add num).2 in
  (forall j s, suppliers db !! j = Some s -> suppliers db' !! j = Some s) /\
  (forall j s', suppliers db' !! j = Some s' ->
                suppliers db !! j = Some s' \/
                (suppliers db !! j = None /\ fresh_row s')).
Proof.
  unfold create_negotiation.
  destruct (extract_requirements_from_opportunity _ _ _) as [rq|].
  - cbv zeta.
    match goal with
    | |- context [create_suppliers env o rq add ?i ?names 0%nat None ?d] =>
        exact (create_suppliers_rows env o rq add i names 0%nat None d)
    end.
  - cbn. split; auto.
Qed.

(** *** Reachable stores *)

Lemma respond_rows (env : Env) (db : DB) (sid id j : Z) (s' : Supplier) :
  suppliers (respond env db sid id).2 !! j = Some s' ->
  exists s,
    suppliers db !! j = Some s /\
    (negotiation_round s' = negotiation_round s \/
     (j = id /\ (respond env db sid id).1 = OK /\ negotiation_round s < 2 /\
      negotiation_round s' = negotiation_round s + 1)).
Proof.
  destruct (decide (j = id)) as [->|Hne].
  - destruct (respond env db sid id) as [code db'] eqn:E.
    destruct code; cbn [fst snd].
    + pose proof E as E'. apply respond_ok_inv in E'
        as (session & s & rq & response & price & msg & rest & _ & Hs & _).
      destruct (respond_ok_supplier env db db' sid id s Hs E)
        as (r & p & Hs').
      rewrite Hs'. intros [= <-]. exists s. split; [exact Hs|].
      rewrite advanced_round.
      destruct (Z.ltb_spec (negotiation_round s) 2); [right|left]; auto.
    + pose proof (respond_not_ok env db sid id) as H. rewrite E in H.
      cbn in H. rewrite H by discriminate. intros Hs. exists s'. auto.
    + pose proof (respond_not_ok env db sid id) as H. rewrite E in H.
      cbn in H. rewrite H by discriminate. intros Hs. exists s'. auto.
  - rewrite respond_others by exact Hne. intros Hs. exists s'. auto.
Qed.

Lemma accept_rows (db : DB) (sid id j : Z) (s' : Supplier) :
  suppliers (accept_quote db sid id).2 !! j = Some s' ->
  exists s, suppliers db !! j = Some s /\
            negotiation_round s' = negotiation_round s.
Proof.
  destruct (decide (j = id)) as [->|Hne].
  - destruct (suppliers db !! id) as [s|] eqn:Hs.
    + destruct (accept_inv db sid id s Hs) as (s0 & -> & _ & _ & Hr & _).
      cbn. rewrite lookup_insert_eq. intros [= <-]. exists s. auto.
    + rewrite accept_missing by exact Hs. cbn. rewrite Hs. discriminate.
  - rewrite accept_others by exact Hne. intros Hs. exists s'. auto.
Qed.

Lemma step_rounds_bounded (env : Env) (db : DB) (r : request) :
  rounds_bounded db -> rounds_bounded (step env db r).2.
Proof.
  intros Hb id s' Hs'. destruct r as [o t a n|sid i|sid i]; cbn [handle] in Hs'.
  - destruct (create_rows env db o t a n) as [_ Hnew].
    destruct (Hnew id s' Hs') as [H|[_ (Hr & _)]]; [exact (Hb id s' H)|lia].
  - apply respond_rows in Hs' as (s & Hs & [Hr|(_ & _ & Hlt & Hr)]);
      specialize (Hb id s Hs); lia.
  - apply accept_rows in Hs' as (s & Hs & Hr).
    specialize (Hb id s Hs). lia.
Qed.

(** C6: in every store that create, advance and accept requests can produce,
    the round of every supplier is between 0 and 2.  A supplier is created at
    round 0 and creation leaves the other rows as they are; an advance adds
    exactly 1 to the round of its supplier when that round is below 2 and
    leaves it otherwise, and a request that fails leaves it too; accept
    changes no round. *)
Theorem negotiation_round_starts_at_0_and_stays_within_2 :
  (forall db, reachable_db db -> rounds_bounded db) /\
  (forall env db o target add num j s',
     suppliers (create env db o target add num).2 !! j = Some s' ->
     suppliers db !! j = Some s' \/
     (suppliers db !! j = None /\ negotiation_round s' = 0)) /\
  (forall env db db' sid id s,
     suppliers db !! id = Some s ->
     respond env db sid id = (OK, db') ->
     exists s',
       suppliers db' !! id = Some s' /\
       negotiation_round s'
       = if negotiation_round s <? 2 then negotiation_round s + 1
         else negotiation_round s) /\
  (forall env db sid id,
     (respond env db sid id).1 <> OK -> (respond env db sid id).2 = db) /\
  (forall env db sid id j,
     j <> id -> suppliers (respond env db sid id).2 !! j = suppliers db !! j) /\
  (forall db sid id j s',
     suppliers (accept_quote db sid id).2 !! j = Some s' ->
     exists s, suppliers db !! j = Some s /\
               negotiation_round s' = negotiation_round s).
Proof.
  split; [|split; [|split; [|split; [|split]]]].
  - induction 1 as [|env db r _ IH].
    + intros id s Hs. cbn in Hs. rewrite lookup_empty in Hs. discriminate.
    + apply step_rounds_bounded, IH.
  - intros env db o target add num j s' Hs'.
    destruct (create_rows env db o target add num) as [_ Hnew].
    destruct (Hnew j s' Hs') as [H|[H (Hr & _)]]; auto.
  - intros env db db' sid id s Hs E.
    destruct (respond_ok_supplier env db db' sid id s Hs E) as (r & p & Hs').
    eexists. split; [exact Hs'|]. apply advanced_round.
  - apply respond_not_ok.
  - apply respond_others.
  - apply accept_rows.
Qed.

(** *** Round progression *)

(** C1 (as amended): from round 0 and no message of the supplier, two
    successful advances leave the supplier at round 2 with the status
    'negotiating' and the final price as it was before them (null when it
    was null); it is the next advance, made at round 2, that sets the final
    price, and it leaves the round at 2 and the status at 'negotiating'. *)
Theorem two_advances_reach_round_2_third_sets_final_price
    (env1 env2 : Env) (db db1 db2 : DB) (sid id : Z) (s : Supplier) :
  suppliers db !! id = Some s ->
  negotiation_round s = 0 ->
  count_supplier_sent db id = 0 ->
  respond env1 db sid id = (OK, db1) ->
  respond env2 db1 sid id = (OK, db2) ->
  exists s2,
    suppliers db2 !! id = Some s2 /\
    negotiation_round s2 = 2 /\
    status s2 = "negotiating" /\
    final_price s2 = final_price s /\
    forall env3 db3,
      respond env3 db2 sid id = (OK, db3) ->
      exists s3 p,
        suppliers db3 !! id = Some s3 /\
        negotiation_round s3 = 2 /\
        status s3 = "negotiating" /\
        final_price s3 = Some p.
Proof.
  intros Hs Hr Hc E1 E2.
  destruct (respond_ok_supplier env1 db db1 sid id s Hs E1) as (r1 & p1 & Hs1).
  pose proof (respond_ok_count env1 db db1 sid id E1) as Hc1.
  rewrite Hc in Hs1, Hc1. change (0 =? 0) with true in Hs1.
  pose proof (advanced_round true s r1 p1) as R1.
  pose proof (advanced_final_price true s r1 p1) as F1.
  pose proof (advanced_status true s r1 p1) as S1.
  rewrite Hr in R1, F1.
  revert Hs1 R1 F1 S1. generalize (advanced true s r1 p1).
  intros s1 Hs1 R1 F1 S1.
  change (negotiation_round s1 = 1) in R1.
  change (final_price s1 = final_price s) in F1.
  destruct (respond_ok_supplier env2 db1 db2 sid id s1 Hs1 E2)
    as (r2 & p2 & Hs2).
  pose proof (respond_ok_count env2 db1 db2 sid id E2) as Hc2.
  replace (count_supplier_sent db1 id =? 0) with false in Hs2
    by (symmetry; apply Z.eqb_neq; lia).
  pose proof (advanced_round false s1 r2 p2) as R2.
  pose proof (advanced_final_price false s1 r2 p2) as F2.
  pose proof (advanced_status false s1 r2 p2) as S2.
  rewrite R1 in R2, F2.
  revert Hs2 R2 F2 S2. generalize (advanced false s1 r2 p2).
  intros s2 Hs2 R2 F2 S2.
  change (negotiation_round s2 = 2) in R2.
  change (final_price s2 = final_price s1) in F2.
  exists s2. split; [exact Hs2|]. split; [exact R2|].
  split; [congruence|]. split; [congruence|].
  intros env3 db3 E3.
  destruct (respond_ok_supplier env3 db2 db3 sid id s2 Hs2 E3)
    as (r3 & p3 & Hs3).
  replace (count_supplier_sent db2 id =? 0) with false in Hs3
    by (symmetry; apply Z.eqb_neq; lia).
  exists (advanced false s2 r3 p3), (quoted r3 p3).
  split; [exact Hs3|].
  rewrite (advanced_round false s2), (advanced_status false s2),
    (advanced_final_price false s2), R2.
  split; [reflexivity|]. split; [congruence|reflexivity].
Qed.

(** *** Who assigns the final price *)

(** C5 (as amended): a supplier is created without a final price.  An
    advance made below round 2 leaves the final price as it is; every
    advance made at round 2 assigns it, to the price filed with the reply
    of that advance, so that a repeated advance assigns it again.  Accept
    replaces it by the price of the supplier's latest message when that
    message carries one and leaves it otherwise.  A failed request and a
    request for another supplier leave it as it is. *)
Theorem final_price_assigned_by_advance_at_round_2_and_by_accept :
  (forall env db o target add num j s',
     suppliers (create env db o target add num).2 !! j = Some s' ->
     suppliers db !! j = Some s' \/
     (suppliers db !! j = None /\ final_price s' = None)) /\
  (forall env db db' sid id s,
     suppliers db !! id = Some s ->
     respond env db sid id = (OK, db') ->
     exists s' msg response price,
       suppliers db' !! id = Some s' /\
       supplier_sent db' id = (supplier_sent db id ++ [msg])%list /\
       price_mentioned msg = Some (quoted response price) /\
       (negotiation_round s < 2 -> final_price s' = final_price s) /\
       (2 <= negotiation_round s ->
        final_price s' = Some (quoted response price))) /\
  (forall env db sid id,
     (respond env db sid id).1 <> OK -> (respond env db sid id).2 = db) /\
  (forall db sid id s,
     suppliers db !! id = Some s ->
     exists s',
       suppliers (accept_quote db sid id).2 !! id = Some s' /\
       final_price s' = accepted_price db id s) /\
  (forall env db sid id j,
     j <> id ->
     suppliers (respond env db sid id).2 !! j = suppliers db !! j /\
     suppliers (accept_quote db sid id).2 !! j = suppliers db !! j).
Proof.
  split; [|split; [|split; [|split]]].
  - intros env db o target add num j s' Hs'.
    destruct (create_rows env db o target add num) as [_ Hnew].
    destruct (Hnew j s' Hs') as [H|[H (_ & Hf & _)]]; auto.
  - intros env db db' sid id s Hs E.
    pose proof E as E'. apply respond_ok_inv in E'
      as (session & s0 & rq & response & price & msg & rest & _ & Hs0 & _ & _
          & Hid & Hsnd & _ & Hp & Hrest & _ & Hm & Hsup).
    assert (s0 = s) as -> by congruence.
    eexists _, msg, response, price.
    split; [rewrite Hsup; apply lookup_insert_eq|].
    split.
    { unfold supplier_sent. rewrite Hm, List.filter_app. cbn [List.filter].
      rewrite (buyer_rows_not_supplier_sent id rest Hrest).
      unfold from_supplier at 2. rewrite Hid, Hsnd, Z.eqb_refl. reflexivity. }
    split; [exact Hp|].
    rewrite advanced_final_price.
    split; intros H.
    + apply Z.ltb_lt in H. rewrite H. reflexivity.
    + apply Z.ltb_ge in H. rewrite H. reflexivity.
  - apply respond_not_ok.
  - intros db sid id s Hs.
    destruct (accept_inv db sid id s Hs) as (s' & -> & _ & Hf & _).
    exists s'. split; [cbn; apply lookup_insert_eq|exact Hf].
  - intros env db sid id j Hne.
    split; [apply respond_others|apply accept_others]; exact Hne.
Qed.

(** *** Lookup of the supplier *)

Lemma respond_succeeds (env : Env) (db : DB) (sid id : Z)
    (session : NegotiationSession) (s : Supplier) (rq : Requirements)
    (response : string) :
  let round_num :=
    if count_supplier_sent db id =? 0 then 0 else negotiation_round s in
  let price :=
    suggested_price hash (company_name s) round_num (target_price session) in
  sessions db !! sid = Some session ->
  suppliers db !! id = Some s ->
  json_loads (extracted_requirements session) = Some rq ->
  complete_supplier_response (llm env) (company_name s) rq
    (last3 (messages_of db id)) round_num price = Some response ->
  (forall msgs k, complete_negotiation_response (llm env) msgs rq k <> None) ->
  exists msg rest,
    respond env db sid id
    = (OK, {| sessions := sessions db;
              suppliers :=
                <[id := advanced (count_supplier_sent db id =? 0) s
                          response price]> (suppliers db);
              messages := (messages db ++ msg :: rest)%list |}) /\
    supplier_id msg = id /\ sender msg = "supplier" /\
    content msg = response /\
    price_mentioned msg = Some (quoted response price).
Proof.
  intros round_num price Hses Hs Hj Hllm Hbuyer.
  unfold respond_to_supplier. rewrite Hses, Hs, Hj. cbv zeta.
  unfold generate_supplier_response. fold round_num. fold price.
  rewrite Hllm.
  set (first := count_supplier_sent db id =? 0) in *.
  assert (Hr : negotiation_round
                 (if first then with_initial_quote s price else s)
               = negotiation_round s) by (destruct first; reflexivity).
  rewrite !Hr. unfold advanced.
  destruct (negotiation_round s <? 2) eqn:Hlt.
  - unfold generate_negotiation_response.
    match goal with
    | |- context [complete_negotiation_response (llm env) ?m rq ?k] =>
        destruct (complete_negotiation_response (llm env) m rq k) as [b|] eqn:Eb;
        [|exfalso; exact (Hbuyer m k Eb)]
    end.
    eexists _, [_]. split; [reflexivity|]. repeat split.
  - eexists _, []. split; [reflexivity|]. repeat split.
Qed.

(** C9: neither route checks that the supplier belongs to the session of
    the request.  [accept_quote] does not read the session identifier at all
    and completes a supplier of any session.  [respond_to_supplier], given
    an existing session and a supplier of another session, succeeds whenever
    the completion service replies: it files the reply with that supplier,
    updates its row, and takes the requirements and the target price, hence
    the suggested price, from the session of the request. *)
Theorem supplier_looked_up_without_session_check :
  (forall db sid sid' id,
     accept_quote db sid id = accept_quote db sid' id) /\
  (forall db sid id s,
     suppliers db !! id = Some s ->
     session_id s <> sid ->
     exists db' s',
       accept_quote db sid id = (OK, db') /\
       suppliers db' !! id = Some s' /\ status s' = "completed") /\
  (forall env db sid id session s rq response,
     let first := count_supplier_sent db id =? 0 in
     let round_num := if first then 0 else negotiation_round s in
     let price :=
       suggested_price hash (company_name s) round_num
         (target_price session) in
     sessions db !! sid = Some session ->
     suppliers db !! id = Some s ->
     session_id s <> sid ->
     json_loads (extracted_requirements session) = Some rq ->
     complete_supplier_response (llm env) (company_name s) rq
       (last3 (messages_of db id)) round_num price = Some response ->
     (forall msgs k,
        complete_negotiation_response (llm env) msgs rq k <> None) ->
     exists db' msg rest,
       respond env db sid id = (OK, db') /\
       suppliers db' !! id = Some (advanced first s response price) /\
       messages db' = (messages db ++ msg :: rest)%list /\
       supplier_id msg = id /\ sender msg = "supplier" /\
       content msg = response /\
       price_mentioned msg = Some (quoted response price) /\
       (first = true ->
        initial_price (advanced first s response price) = Some price)).
Proof.
  split; [|split].
  - reflexivity.
  - intros db sid id s Hs _.
    destruct (accept_inv db sid id s Hs) as (s' & Hacc & Hst & _).
    eexists _, s'. split; [exact Hacc|].
    split; [cbn; apply lookup_insert_eq|exact Hst].
  - intros env db sid id session s rq response first round_num price
           Hses Hs _ Hj Hllm Hbuyer.
    destruct (respond_succeeds env db sid id session s rq response
                Hses Hs Hj Hllm Hbuyer)
      as (msg & rest & E & Hid & Hsnd & Hc & Hp).
    eexists _, msg, rest. split; [exact E|].
    split; [cbn; apply lookup_insert_eq|].
    split; [reflexivity|].
    repeat (split; [assumption|]).
    intros ->. unfold advanced.
    destruct (negotiation_round s <? 2); reflexivity.
Qed.

End Machine.

(* ================================================================== *)
(** ** The sample negotiation *)
(* ================================================================== *)

Ltac run := vm_compute; reflexivity.

Lemma created_reachable :
  reachable Sample.hash Sample.loads Sample.dumps Sample.created.
Proof.
  exact (reach_step Sample.hash Sample.loads Sample.dumps
           (Sample.env Sample.best_offer 0) empty_db
           (Create Sample.opportunity (of_int 1000) "" 2)
           (reach_empty _ _ _)).
Qed.

Lemma advance_reachable (final : string) (now : Z) (db : DB) :
  reachable Sample.hash Sample.loads Sample.dumps db ->
  reachable Sample.hash Sample.loads Sample.dumps (Sample.advance final now db).
Proof.
  intros H.
  exact (reach_step Sample.hash Sample.loads Sample.dumps
           (Sample.env final now) db (Respond 1 1) H).
Qed.

Lemma after4_reachable :
  reachable Sample.hash Sample.loads Sample.dumps Sample.after4.
Proof.
  unfold Sample.after4, Sample.after3, Sample.after2, Sample.after1.
  repeat apply advance_reachable. exact created_reachable.
Qed.

Lemma two_advances_witness :
  exists s2,
    suppliers Sample.after2 !! 1 = Some s2 /\
    negotiation_round s2 = 2 /\
    status s2 = "negotiating" /\
    final_price s2 = None /\
    forall env3 db3,
      respond_to_supplier Sample.hash Sample.loads env3 Sample.after2 1 1
      = (OK, db3) ->
      exists s3 p,
        suppliers db3 !! 1 = Some s3 /\
        negotiation_round s3 = 2 /\
        status s3 = "negotiating" /\
        final_price s3 = Some p.
Proof.
  apply (two_advances_reach_round_2_third_sets_final_price
           Sample.hash Sample.loads
           (Sample.env Sample.best_offer 10) (Sample.env Sample.best_offer 20)
           Sample.created Sample.after1 Sample.after2 1 1 Sample.acme).
  - vm_compute; reflexivity.
  - reflexivity.
  - vm_compute; reflexivity.
  - vm_compute; reflexivity.
  - vm_compute; reflexivity.
Defined.

(** C1 (as stated) fails: after the two advances of the sample the supplier
    is at round 2 and its final price is still null. *)
Lemma two_advances_finalise_counterexample :
  ~ two_advances_finalise Sample.hash Sample.loads.
Proof.
  intros H.
  destruct (H (Sample.env Sample.best_offer 10)
              (Sample.env Sample.best_offer 20)
              Sample.created Sample.after1 Sample.after2 1 1 Sample.acme)
    as (s2 & Hs2 & _ & Hf & _); try run.
  vm_compute in Hs2. injection Hs2 as <-. apply Hf. reflexivity.
Qed.

Lemma accept_witness :
  exists db' s',
    accept_quote Sample.after2 1 1 = (OK, db') /\
    suppliers db' !! 1 = Some s' /\
    status s' = "completed" /\
    final_price s' = Some (of_int 1400).
Proof.
  destruct (accept_completes_and_takes_latest_price Sample.after2 1 1
              (with_round
                 (with_initial_quote Sample.acme
                    (suggested_price Sample.hash "Acme Federal" 0
                       (of_int 1000))) 2))
    as (db' & s' & Hacc & Hs' & Hst & Hprice & _).
  - vm_compute; reflexivity.
  - exists db', s'. repeat (split; [assumption|]).
    apply (Hprice
             {| message_id := 5; supplier_id := 1; sender := "supplier";
                content := "Revised total: $1,400.00";
                price_mentioned := Some (of_int 1400);
                created_at := 20 |}).
    + vm_compute; reflexivity.
    + reflexivity.
    + vm_compute; reflexivity.
Defined.

Lemma final_price_witness :
  exists s3 s4,
    suppliers Sample.after3 !! 1 = Some s3 /\
    suppliers Sample.after4 !! 1 = Some s4 /\
    final_price s3 = Some (of_int 1200) /\
    final_price s4 = Some (of_int 1150).
Proof.
  destruct (proj1 (proj2
              (final_price_assigned_by_advance_at_round_2_and_by_accept
                 Sample.hash Sample.loads Sample.dumps))
              (Sample.env Sample.better_offer 40) Sample.after3 Sample.after4
              1 1
              (with_final_price
                 (with_round
                    (with_initial_quote Sample.acme
                       (suggested_price Sample.hash "Acme Federal" 0
                          (of_int 1000))) 2)
                 (of_int 1200)))
    as (s4 & msg & response & price & Hs4 & _ & _ & _ & _).
  - vm_compute; reflexivity.
  - vm_compute; reflexivity.
  - eexists _, s4. split; [vm_compute; reflexivity|].
    split; [exact Hs4|]. split; [vm_compute; reflexivity|].
    vm_compute in Hs4. injection Hs4 as <-. vm_compute. reflexivity.
Defined.

(** C5 (as stated) fails: the third advance of the sample sets the final
    price to 1200 and the fourth sets it again, to 1150. *)
Lemma advance_keeps_final_price_counterexample :
  ~ advance_keeps_final_price Sample.hash Sample.loads.
Proof.
  intros H.
  destruct (H (Sample.env Sample.better_offer 40) Sample.after3 Sample.after4
              1 1
              (with_final_price
                 (with_round
                    (with_initial_quote Sample.acme
                       (suggested_price Sample.hash "Acme Federal" 0
                          (of_int 1000))) 2)
                 (of_int 1200)))
    as (s4 & Hs4 & Hf); try run.
  - discriminate.
  - vm_compute in Hs4. injection Hs4 as <-. vm_compute in Hf. discriminate.
Qed.

Lemma rounds_witness :
  exists s,
    suppliers Sample.after4 !! 1 = Some s /\ 0 <= negotiation_round s <= 2.
Proof.
  eexists. split; [vm_compute; reflexivity|].
  apply (proj1 (negotiation_round_starts_at_0_and_stays_within_2
                  Sample.hash Sample.loads Sample.dumps)
           Sample.after4 after4_reachable 1).
  vm_compute; reflexivity.
Defined.

Lemma multiplier_witness :
  fge (price_multiplier Sample.hash "Acme Federal" 2) (of_decimal 110 2)
  = true /\
  flt (price_multiplier Sample.hash "Acme Federal" 2) (of_decimal 125 2)
  = true.
Proof.
  apply (multiplier_ranges_and_suggested_price Sample.hash "Acme Federal" 2
           (of_int 1000)).
  lia.
Defined.

Lemma session_check_witness :
  exists db' msg rest,
    respond_to_supplier Sample.hash Sample.loads
      (Sample.env Sample.best_offer 50) Sample.two_sessions 2 1 = (OK, db') /\
    suppliers db' !! 1
    = Some (advanced true Sample.acme "Our total: $1,700.00"
              (suggested_price Sample.hash "Acme Federal" 0 (of_int 50000))) /\
    messages db' = (messages Sample.two_sessions ++ msg :: rest)%list /\
    session_id Sample.acme = 1.
Proof.
  destruct (proj2 (proj2 (supplier_looked_up_without_session_check
                            Sample.hash Sample.loads))
              (Sample.env Sample.best_offer 50) Sample.two_sessions 2 1
              {| opportunity_id := "SAM-0001";
                 opportunity_title := "Laptop refresh";
                 opportunity_data := "<opportunity>";
                 target_price := of_int 50000;
                 extracted_requirements := "<requirements>";
                 session_status := "active" |}
              Sample.acme Sample.requirements "Our total: $1,700.00")
    as (db' & msg & rest & E & Hs & Hm & _).
  - vm_compute; reflexivity.
  - vm_compute; reflexivity.
  - cbn. lia.
  - vm_compute; reflexivity.
  - vm_compute; reflexivity.
  - intros msgs k. discriminate.
  - exists db', msg, rest. split; [exact E|].
    split; [exact Hs|]. split; [exact Hm|reflexivity].
Defined.

(* ================================================================== *)
(** ** The reply of the document analysis *)
(* ================================================================== *)

Section AnalysisFacts.

Variable json : Type.
Variable unicode_escape : string -> App.exn string.
Variable json_loads : string -> App.exn json.

Abbreviation parse := (App.parse_raw_output json unicode_escape json_loads).
Abbreviation analyze :=
  (App.analyze_solicitations json unicode_escape json_loads).

(** [parse_raw_output] catches every exception: it never raises. *)
Lemma parse_raw_output_returns (raw_output : string) :
  exists v, parse raw_output = App.Return v.
Proof.
  unfold App.parse_raw_output.
  destruct (App.parse_steps _ _ _ raw_output); eexists; reflexivity.
Qed.

(** C8: what the code does when a parse stage fails.  [parse_raw_output]
    swallows the exception and returns [None], so the handler of
    [analyze_solicitations] that would answer 502 with the raw text never
    runs: the view returns the bare [None], and no reply of the route has
    the status 502. *)
Theorem parse_failure_returns_none_not_the_raw_text
    (svc : App.Services) (urls files : list string) (raw_output e : string) :
  urls <> [] ->
  App.download_and_upload_files svc urls = files ->
  files <> [] ->
  App.responses_create svc files = App.Return raw_output ->
  App.parse_steps json unicode_escape json_loads raw_output = App.Raise e ->
  analyze svc (Some urls) = App.Value json None /\
  forall urls' body, analyze svc urls' <> App.Jsonify json body 502.
Proof.
  intros Hu Hd Hf Hr Hp. split.
  - unfold App.analyze_solicitations.
    destruct urls as [|u urls]; [contradiction|].
    rewrite Hd. destruct files as [|f files]; [contradiction|].
    rewrite Hr. unfold App.parse_raw_output. rewrite Hp. reflexivity.
  - intros urls' body. unfold App.analyze_solicitations.
    destruct urls' as [[|u' urls']|]; try discriminate.
    destruct (App.download_and_upload_files svc (u' :: urls')) as [|f fs];
      [discriminate|].
    destruct (App.responses_create svc (f :: fs)) as [raw|]; [|discriminate].
    destruct (parse_raw_output_returns raw) as (v & ->). discriminate.
Qed.

End AnalysisFacts.

Lemma parse_failure_witness :
  App.analyze_solicitations string DocSample.decode DocSample.parse
    DocSample.services (Some ["https://sam.gov/notice.pdf"])
  = App.Value string None.
Proof.
  apply (parse_failure_returns_none_not_the_raw_text string DocSample.decode
           DocSample.parse DocSample.services ["https://sam.gov/notice.pdf"]
           ["file-1"] "not json" "Expecting value").
  - discriminate.
  - reflexivity.
  - discriminate.
  - reflexivity.
  - reflexivity.
Defined.

(* ================================================================== *)
(** ** Further properties of the routes *)
(* ================================================================== *)

Section Stores.

Variable hash : string -> Z.
Variable json_loads : string -> option Requirements.
Variable json_dumps : Requirements -> string.

Abbreviation respond' := (respond_to_supplier hash json_loads).
Abbreviation create' := (create_negotiation json_loads json_dumps).
Abbreviation step' := (handle hash json_loads json_dumps).
Abbreviation reachable' := (reachable hash json_loads json_dumps).

(** *** What each request appends to the messages *)

Lemma respond_ok_messages (env : Env) (db db' : DB) (sid id : Z) :
  respond' env db sid id = (OK, db') ->
  exists msg rest,
    messages db' = (messages db ++ msg :: rest)%list /\
    message_id msg = next_message_id (messages db) /\
    supplier_id msg = id /\ sender msg = "supplier" /\
    price_mentioned msg <> None /\
    (rest = [] \/
     exists b, rest = [b] /\ message_id b = 1 + message_id msg /\
               supplier_id b = id /\ sender b = "buyer" /\
               price_mentioned b = None).
Proof.
  unfold respond_to_supplier. cbv zeta.
  destruct (sessions db !! sid) as [session|]; [|discriminate].
  destruct (suppliers db !! id) as [s|]; [|discriminate].
  destruct (json_loads _) as [requirements|]; [|discriminate].
  destruct (generate_supplier_response _ _ _ _ _ _ _) as [[response price]|];
    [|discriminate].
  destruct (_ <? 2).
  - destruct (generate_negotiation_response _ _ _ _) as [buyer|];
      [|discriminate].
    intros [= <-]. eexists _, [_]. split; [reflexivity|].
    repeat (split; [reflexivity || discriminate|]).
    right. eexists. repeat split.
  - intros [= <-]. eexists _, []. split; [reflexivity|].
    repeat (split; [reflexivity || discriminate|]). left. reflexivity.
Qed.

Lemma respond_messages (env : Env) (db : DB) (sid id : Z) :
  exists added,
    messages (respond' env db sid id).2 = (messages db ++ added)%list /\
    Forall (fun m => supplier_id m = id /\ filed m) added /\
    (added <> [] -> (respond' env db sid id).1 = OK) /\
    match added with
    | [] => True
    | m :: rest =>
        message_id m = next_message_id (messages db) /\
        (rest = [] \/ exists b, rest = [b] /\ message_id b = 1 + message_id m)
    end.
Proof.
  destruct (respond' env db sid id) as [code db'] eqn:E.
  destruct code.
  - destruct (respond_ok_messages env db db' sid id E)
      as (msg & rest & Hm & Hid & Hsup & Hsnd & Hp & Hrest).
    exists (msg :: rest). split; [exact Hm|].
    split; [|split; [reflexivity|]].
    + constructor; [split; [exact Hsup|left; auto]|].
      destruct Hrest as [->|(b & -> & _ & Hb1 & Hb2 & Hb3)]; [constructor|].
      constructor; [|constructor]. split; [exact Hb1|right; auto].
    + split; [exact Hid|].
      destruct Hrest as [->|(b & -> & Hb & _)]; [left; reflexivity|].
      right. exists b. auto.
  - pose proof (respond_not_ok hash json_loads env db sid id) as H.
    rewrite E in H. cbn in *. rewrite H by discriminate.
    exists []. rewrite app_nil_r. repeat split; [constructor|contradiction].
  - pose proof (respond_not_ok hash json_loads env db sid id) as H.
    rewrite E in H. cbn in *. rewrite H by discriminate.
    exists []. rewrite app_nil_r. repeat split; [constructor|contradiction].
Qed.

(** *** An induction principle for the loop of [create_negotiation] *)

Lemma create_suppliers_invariant
    (env : Env) (o : Opportunity) (rq : Requirements) (add : string)
    (session : Z) (P : option (Z * string * nat) -> DB -> Prop) :
  (forall pending db, P pending db -> P None (flush env pending db)) ->
  (forall db name,
     P None db ->
     let id := next_key (suppliers db) in
     let db1 :=
       set_suppliers db (<[id := new_row rq session name]> (suppliers db)) in
     P None db1 /\ forall text n, P (Some (id, text, n)) db1) ->
  forall names n pending db,
    P pending db ->
    P None (create_suppliers env o rq add session names n pending db).2.
Proof.
  intros Hflush Hins.
  induction names as [|name rest IH]; intros n pending db HP;
    cbn [create_suppliers].
  - apply Hflush, HP.
  - cbv zeta.
    destruct (Hins (flush env pending db) name (Hflush _ _ HP)) as [H1 H2].
    destruct (complete_initial_request _ _ _ _ _) as [text|].
    + apply IH. apply H2.
    + exact H1.
Qed.

Lemma next_message_id_above (l : list Message) :
  Forall (fun m => message_id m < next_message_id l) l.
Proof.
  unfold next_message_id. induction l as [|m l IH]; [constructor|].
  cbn [fold_right]. constructor; [lia|].
  eapply Forall_impl; [exact IH|]. intros m' H. cbn beta in *. lia.
Qed.

Lemma ids_increasing_app (l l' : list Message) :
  ids_increasing l -> ids_increasing l' ->
  (forall m m', In m l -> In m' l' -> message_id m < message_id m') ->
  ids_increasing (l ++ l').
Proof.
  induction l as [|a l IH]; intros Hl Hl' Hlt; [exact Hl'|].
  cbn [app ids_increasing] in *. destruct Hl as [Ha Hl]. split.
  - apply Forall_app. split; [exact Ha|].
    apply List.Forall_forall. intros m' Hm'. apply Hlt; [left; reflexivity|exact Hm'].
  - apply IH; auto. intros m m' Hm Hm'. apply Hlt; [right; exact Hm|exact Hm'].
Qed.

Lemma ids_increasing_snoc (l : list Message) (m : Message) :
  ids_increasing l -> message_id m = next_message_id l ->
  ids_increasing (l ++ [m]).
Proof.
  intros Hl Hm. apply ids_increasing_app; [exact Hl|cbn; auto|].
  intros a m' Ha [<-|[]]. rewrite Hm.
  pose proof (next_message_id_above l) as H.
  rewrite List.Forall_forall in H. apply H, Ha.
Qed.

Lemma flush_messages (env : Env) (pending : option (Z * string * nat))
    (db : DB) :
  messages (flush env pending db) = messages db \/
  exists m,
    messages (flush env pending db) = (messages db ++ [m])%list /\
    message_id m = next_message_id (messages db) /\
    sender m = "buyer" /\ price_mentioned m = None /\
    exists t k, pending = Some (supplier_id m, t, k).
Proof.
  destruct pending as [[[i t] k]|]; [right|left; reflexivity].
  eexists. split; [reflexivity|]. repeat split. eauto.
Qed.

Lemma flush_sessions (env : Env) (pending : option (Z * string * nat))
    (db : DB) :
  sessions (flush env pending db) = sessions db.
Proof. destruct pending as [[[i t] k]|]; reflexivity. Qed.

(** *** Invariants of a step *)

Lemma advanced_session (first : bool) (s : Supplier) (r : string) (p : float) :
  session_id (advanced first s r p) = session_id s.
Proof.
  unfold advanced. destruct (negotiation_round s <? 2), first; reflexivity.
Qed.

Lemma advanced_initial_price (first : bool) (s : Supplier) (r : string)
    (p : float) :
  initial_price (advanced first s r p)
  = if first then Some p else initial_price s.
Proof.
  unfold advanced. destruct (negotiation_round s <? 2), first; reflexivity.
Qed.

Lemma supplier_sent_other (db db' : DB) (id j : Z) (added : list Message) :
  messages db' = (messages db ++ added)%list ->
  Forall (fun m => supplier_id m = id \/ sender m = "buyer") added ->
  j <> id ->
  supplier_sent db' j = supplier_sent db j.
Proof.
  intros Hm Hadd Hne. unfold supplier_sent. rewrite Hm, List.filter_app.
  replace (List.filter (from_supplier j) added) with (@nil Message);
    [apply app_nil_r|].
  symmetry. clear Hm. induction Hadd as [|m l Hmm _ IH]; [reflexivity|].
  cbn [List.filter]. unfold from_supplier at 1.
  destruct Hmm as [E|E]; rewrite E.
  - destruct (Z.eqb_spec id j); [congruence|]. cbn [andb]. exact IH.
  - rewrite andb_false_r. exact IH.
Qed.

Lemma supplier_sent_buyers (db db' : DB) (j : Z) (added : list Message) :
  messages db' = (messages db ++ added)%list ->
  Forall (fun m => sender m = "buyer") added ->
  supplier_sent db' j = supplier_sent db j.
Proof.
  intros Hm Hadd. unfold supplier_sent. rewrite Hm, List.filter_app.
  rewrite (buyer_rows_not_supplier_sent j added Hadd). apply app_nil_r.
Qed.

Lemma count_nonneg (db : DB) (id : Z) : 0 <= count_supplier_sent db id.
Proof. unfold count_supplier_sent. lia. Qed.

Lemma respond_store_ok (env : Env) (db : DB) (sid id : Z) :
  store_ok db -> store_ok (respond' env db sid id).2.
Proof.
  intros Hok.
  destruct (respond' env db sid id) as [code db'] eqn:E.
  destruct code; cbn [snd];
    [|pose proof (respond_not_ok hash json_loads env db sid id) as H;
      rewrite E in H; cbn in H; rewrite H by discriminate; exact Hok ..].
  destruct Hok as (Hlink & Hfiled & Hids & Hrows).
  pose proof (respond_ok_inv hash json_loads env db db' sid id E)
    as (session & s & rq & response & price & msg0 & rest0 & _ & Hs & _ & _
        & _ & _ & _ & _ & _ & Hses & _ & Hsup).
  pose proof (respond_ok_count hash json_loads env db db' sid id E) as Hcount.
  destruct (respond_ok_messages env db db' sid id E)
    as (msg & rest & Hm & Hid & Hmsup & Hsnd & Hp & Hrest).
  assert (Hadd : Forall (fun m => supplier_id m = id /\ filed m)
                   (msg :: rest)).
  { constructor; [split; [exact Hmsup|left; auto]|].
    destruct Hrest as [->|(b & -> & _ & Hb1 & Hb2 & Hb3)]; [constructor|].
    constructor; [|constructor]. split; [exact Hb1|right; auto]. }
  destruct Hlink as [Hl1 Hl2].
  split; [split|split; [|split]].
  - intros j s' Hj. rewrite Hses. rewrite Hsup in Hj.
    destruct (decide (id = j)) as [<-|Hne].
    + rewrite lookup_insert_eq in Hj. injection Hj as <-.
      rewrite advanced_session. apply (Hl1 id s Hs).
    + rewrite lookup_insert_ne in Hj by exact Hne. apply (Hl1 j s' Hj).
  - intros m Hin. rewrite Hm in Hin. rewrite Hsup.
    apply in_app_or in Hin as [Hin|Hin].
    + destruct (decide (id = supplier_id m)) as [<-|Hne].
      * rewrite lookup_insert_eq. eauto.
      * rewrite lookup_insert_ne by exact Hne. apply Hl2, Hin.
    + rewrite List.Forall_forall in Hadd. destruct (Hadd m Hin) as [-> _].
      rewrite lookup_insert_eq. eauto.
  - rewrite Hm. apply Forall_app. split; [exact Hfiled|].
    eapply Forall_impl; [exact Hadd|]. intros m [_ H]. exact H.
  - rewrite Hm. apply ids_increasing_app; [exact Hids| |].
    + destruct Hrest as [->|(b & -> & Hb & _)]; cbn; [auto|].
      repeat split; auto. constructor; [lia|constructor].
    + intros a m' Ha Hm'.
      pose proof (next_message_id_above (messages db)) as Habove.
      rewrite List.Forall_forall in Habove. specialize (Habove a Ha).
      destruct Hm' as [<-|Hm']; [lia|].
      destruct Hrest as [->|(b & -> & Hb & _)]; [destruct Hm'|].
      destruct Hm' as [<-|[]]. lia.
  - intros j s' Hj. rewrite Hsup in Hj.
    destruct (decide (id = j)) as [<-|Hne].
    + rewrite lookup_insert_eq in Hj. injection Hj as <-.
      destruct (Hrows id s Hs) as (Hr & Hi & Hpend & Hst).
      pose proof (count_nonneg db id) as Hnn.
      unfold row_tracks_replies.
      rewrite advanced_round, advanced_initial_price, advanced_status, Hcount.
      split; [|split; [|split]].
      * destruct (Z.ltb_spec (negotiation_round s) 2); lia.
      * destruct (Z.eqb_spec (count_supplier_sent db id) 0) as [E0|E0].
        -- split; [discriminate|lia].
        -- split; [intros Hnone; apply Hi in Hnone; lia|lia].
      * destruct (Z.eqb_spec (count_supplier_sent db id) 0) as [E0|E0].
        -- discriminate.
        -- intros Hp'. apply Hpend in Hp'. lia.
      * destruct (count_supplier_sent db id =? 0); auto.
    + rewrite lookup_insert_ne in Hj by exact Hne.
      unfold row_tracks_replies, count_supplier_sent.
      rewrite (supplier_sent_other db db' id j (msg :: rest) Hm);
        [apply (Hrows j s' Hj)| |congruence].
      eapply Forall_impl; [exact Hadd|]. intros m [H _]. left. exact H.
Qed.

Lemma accept_row (db : DB) (sid id : Z) (s : Supplier) :
  suppliers db !! id = Some s ->
  exists s',
    accept_quote db sid id
    = (OK, set_suppliers db (<[id := s']> (suppliers db))) /\
    session_id s' = session_id s /\ company_name s' = company_name s /\
    status s' = "completed" /\
    negotiation_round s' = negotiation_round s /\
    initial_price s' = initial_price s.
Proof.
  intros Hs. unfold accept_quote. rewrite Hs. cbv zeta.
  destruct (latest (supplier_sent db id)) as [m|].
  - destruct (price_mentioned m) as [p|].
    + destruct (truthy p); eexists; (split; [reflexivity|]);
        repeat split; reflexivity.
    + eexists; (split; [reflexivity|]); repeat split; reflexivity.
  - eexists; (split; [reflexivity|]); repeat split; reflexivity.
Qed.

Lemma accept_store_ok (db : DB) (sid id : Z) :
  store_ok db -> store_ok (accept_quote db sid id).2.
Proof.
  intros Hok. destruct (suppliers db !! id) as [s|] eqn:Hs;
    [|rewrite accept_missing by exact Hs; exact Hok].
  destruct Hok as ([Hl1 Hl2] & Hfiled & Hids & Hrows).
  destruct (accept_row db sid id s Hs) as (s' & -> & Hses & _ & Hst & Hr & Hi).
  cbn [snd]. split; [split|split; [|split]];
    cbn [sessions suppliers messages set_suppliers]; try assumption.
  - intros j r Hj. destruct (decide (id = j)) as [<-|Hne].
    + rewrite lookup_insert_eq in Hj. injection Hj as <-.
      rewrite Hses. apply (Hl1 id s Hs).
    + rewrite lookup_insert_ne in Hj by exact Hne. apply (Hl1 j r Hj).
  - intros m Hin. destruct (decide (id = supplier_id m)) as [<-|Hne].
    + rewrite lookup_insert_eq. eauto.
    + rewrite lookup_insert_ne by exact Hne. apply Hl2, Hin.
  - intros j r Hj. cbn [suppliers set_suppliers] in Hj.
    destruct (decide (id = j)) as [<-|Hne].
    + rewrite lookup_insert_eq in Hj. injection Hj as <-.
      destruct (Hrows id s Hs) as (Hr0 & Hi0 & Hpend & Hst0).
      unfold row_tracks_replies, count_supplier_sent, supplier_sent in *.
      cbn [messages set_suppliers]. rewrite Hr, Hi, Hst.
      split; [exact Hr0|]. split; [exact Hi0|]. split; [discriminate|auto].
    + rewrite lookup_insert_ne in Hj by exact Hne. apply (Hrows j r Hj).
Qed.

Lemma fresh_supplier_has_no_message (db : DB) :
  well_linked db -> supplier_sent db (next_key (suppliers db)) = [].
Proof.
  intros [_ Hl]. unfold supplier_sent.
  induction (messages db) as [|m l IH]; [reflexivity|].
  cbn [List.filter]. unfold from_supplier at 1.
  destruct (Z.eqb_spec (supplier_id m) (next_key (suppliers db))) as [E|_].
  - destruct (Hl m (or_introl eq_refl)) as [s Hs].
    rewrite E, next_key_fresh in Hs. discriminate.
  - cbn [andb]. apply IH. intros m' Hm'. apply Hl. right. exact Hm'.
Qed.

Lemma flush_store_ok (env : Env) (pending : option (Z * string * nat))
    (db : DB) :
  store_ok db ->
  (forall i t k, pending = Some (i, t, k) -> is_Some (suppliers db !! i)) ->
  store_ok (flush env pending db).
Proof.
  intros Hok Hpend.
  destruct (flush_messages env pending db)
    as [Hm|(m & Hm & Hid & Hsnd & Hp & t & k & Hpe)].
  - destruct Hok as ([Hl1 Hl2] & Hfiled & Hids & Hrows).
    split; [split|split; [|split]];
      rewrite ?flush_sessions, ?flush_suppliers, ?Hm; try assumption.
    intros j s Hj. rewrite flush_suppliers in Hj.
    unfold row_tracks_replies, count_supplier_sent, supplier_sent.
    rewrite Hm. apply (Hrows j s Hj).
  - destruct Hok as ([Hl1 Hl2] & Hfiled & Hids & Hrows).
    split; [split|split; [|split]];
      rewrite ?flush_sessions, ?flush_suppliers, ?Hm.
    + exact Hl1.
    + intros a Ha. apply in_app_or in Ha as [Ha|[<-|[]]]; [apply Hl2, Ha|].
      apply (Hpend _ t k Hpe).
    + apply Forall_app. split; [exact Hfiled|].
      constructor; [right; auto|constructor].
    + apply ids_increasing_snoc; assumption.
    + intros j s Hj. rewrite flush_suppliers in Hj.
      unfold row_tracks_replies, count_supplier_sent.
      rewrite (supplier_sent_buyers db _ j [m] Hm);
        [apply (Hrows j s Hj)|].
      constructor; [exact Hsnd|constructor].
Qed.

Lemma insert_supplier_store_ok (db : DB) (rq : Requirements) (session : Z)
    (name : string) :
  store_ok db -> is_Some (sessions db !! session) ->
  store_ok (set_suppliers db
              (<[next_key (suppliers db) := new_row rq session name]>
                 (suppliers db))).
Proof.
  intros ([Hl1 Hl2] & Hfiled & Hids & Hrows) Hses.
  pose proof (fresh_supplier_has_no_message db (conj Hl1 Hl2)) as Hnone.
  set (id := next_key (suppliers db)) in *.
  split; [split|split; [|split]];
    cbn [sessions suppliers messages set_suppliers]; try assumption.
  - intros j s Hj. destruct (decide (id = j)) as [<-|Hne].
    + rewrite lookup_insert_eq in Hj. injection Hj as <-. exact Hses.
    + rewrite lookup_insert_ne in Hj by exact Hne. apply (Hl1 j s Hj).
  - intros m Hin. destruct (decide (id = supplier_id m)) as [<-|Hne].
    + rewrite lookup_insert_eq. eauto.
    + rewrite lookup_insert_ne by exact Hne. apply Hl2, Hin.
  - intros j s Hj. cbn [suppliers set_suppliers] in Hj.
    destruct (decide (id = j)) as [<-|Hne].
    + rewrite lookup_insert_eq in Hj. injection Hj as <-.
      unfold row_tracks_replies, count_supplier_sent, supplier_sent in *.
      cbn [messages set_suppliers]. rewrite Hnone. cbn.
      repeat split; auto.
    + rewrite lookup_insert_ne in Hj by exact Hne. apply (Hrows j s Hj).
Qed.

Lemma create_store_ok (env : Env) (db : DB) (o : Opportunity)
    (target : float) (add : string) (num : Z) :
  store_ok db -> store_ok (create' env db o target add num).2.
Proof.
  intros Hok. unfold create_negotiation.
  destruct (extract_requirements_from_opportunity _ _ _) as [rq|];
    [|exact Hok].
  cbv zeta.
  set (sid := next_key (sessions db)).
  set (row := {| opportunity_id := opp_id o;
                 opportunity_title := _; opportunity_data := _;
                 target_price := target; extracted_requirements := _;
                 session_status := _ |}).
  set (db1 := {| sessions := <[sid := row]> (sessions db);
                 suppliers := suppliers db; messages := messages db |}).
  assert (Hok1 : store_ok db1).
  { destruct Hok as ([Hl1 Hl2] & Hfiled & Hids & Hrows).
    split; [split|split; [|split]]; try assumption.
    intros j s Hj. cbn [sessions db1].
    destruct (decide (sid = session_id s)) as [<-|Hne].
    - rewrite lookup_insert_eq. eauto.
    - rewrite lookup_insert_ne by exact Hne. apply (Hl1 j s Hj). }
  apply (create_suppliers_invariant env o rq add sid
           (fun pending d =>
              (store_ok d /\ is_Some (sessions d !! sid)) /\
              (forall i t k, pending = Some (i, t, k) ->
                             is_Some (suppliers d !! i)))).
  - intros pending d [[Hd Hs] Hp]. split; [split|discriminate].
    + apply flush_store_ok; assumption.
    + rewrite flush_sessions. exact Hs.
  - intros d name [[Hd Hs] _]. cbv zeta. split; [split; [split|]|].
    + apply insert_supplier_store_ok; assumption.
    + exact Hs.
    + discriminate.
    + intros text n. split; [split|].
      * apply insert_supplier_store_ok; assumption.
      * exact Hs.
      * intros i t k [= <- _ _]. cbn. rewrite lookup_insert_eq. eauto.
  - split; [split; [exact Hok1|]|discriminate].
    cbn. rewrite lookup_insert_eq. eauto.
Qed.

Lemma empty_store_ok : store_ok empty_db.
Proof.
  split; [split|split; [|split]]; cbn; auto.
  - intros id s Hs. rewrite lookup_empty in Hs. discriminate.
  - intros m [].
  - intros id s Hs. cbn in Hs. rewrite lookup_empty in Hs. discriminate.
Qed.

Lemma reachable_store_ok (db : DB) : reachable' db -> store_ok db.
Proof.
  induction 1 as [|env db r _ IH]; [exact empty_store_ok|].
  destruct r as [o t a n|sid i|sid i]; cbn [handle].
  - apply create_store_ok, IH.
  - apply respond_store_ok, IH.
  - apply accept_store_ok, IH.
Qed.

(** *** Properties of the stores the routes produce *)

(** X1: in every store the three routes can produce, every supplier refers
    to a session of the store and every message to a supplier of the
    store. *)
Theorem stores_keep_their_references (db : DB) :
  reachable' db ->
  (forall id s, suppliers db !! id = Some s ->
                exists session, sessions db !! session_id s = Some session) /\
  (forall m, In m (messages db) ->
             exists s, suppliers db !! supplier_id m = Some s).
Proof.
  intros H. destruct (reachable_store_ok db H) as ([H1 H2] & _).
  split; [intros id s Hs; exact (H1 id s Hs)|intros m Hm; exact (H2 m Hm)].
Qed.

(** X2: in every store the routes can produce, the round of a supplier is
    the number of replies filed for it, capped at 2; hence the round the
    first branch of [respond_to_supplier] passes to the generator (0 when
    there is no reply) is the round of the row, as in the other branch. *)
Theorem round_counts_the_replies (db : DB) (id : Z) (s : Supplier) :
  reachable' db ->
  suppliers db !! id = Some s ->
  negotiation_round s = Z.min 2 (count_supplier_sent db id) /\
  (if count_supplier_sent db id =? 0 then 0 else negotiation_round s)
  = negotiation_round s.
Proof.
  intros H Hs. destruct (reachable_store_ok db H) as (_ & _ & _ & Hrows).
  destruct (Hrows id s Hs) as (Hr & _). split; [exact Hr|].
  destruct (Z.eqb_spec (count_supplier_sent db id) 0) as [E|_]; [|reflexivity].
  rewrite Hr, E. reflexivity.
Qed.

(** X3: in every store the routes can produce, a supplier has an initial
    price exactly when a reply is filed for it, a pending supplier has no
    reply, and the status is one of 'pending', 'negotiating' and
    'completed'. *)
Theorem initial_price_and_status_follow_the_replies
    (db : DB) (id : Z) (s : Supplier) :
  reachable' db ->
  suppliers db !! id = Some s ->
  (initial_price s = None <-> count_supplier_sent db id = 0) /\
  (status s = "pending" -> count_supplier_sent db id = 0) /\
  (status s = "pending" \/ status s = "negotiating" \/
   status s = "completed").
Proof.
  intros H Hs. destruct (reachable_store_ok db H) as (_ & _ & _ & Hrows).
  destruct (Hrows id s Hs) as (_ & Hi & Hp & Hst). auto.
Qed.

(** X4: in every store the routes can produce, a message is either a reply
    of a supplier, filed with a price, or a message of the buyer, filed
    without one. *)
Theorem replies_are_priced_buyer_messages_are_not (db : DB) (m : Message) :
  reachable' db ->
  In m (messages db) ->
  (sender m = "supplier" /\ exists p, price_mentioned m = Some p) \/
  (sender m = "buyer" /\ price_mentioned m = None).
Proof.
  intros H Hm. destruct (reachable_store_ok db H) as (_ & Hf & _).
  rewrite List.Forall_forall in Hf. destruct (Hf m Hm) as [[Hs Hp]|Hb].
  - left. split; [exact Hs|].
    destruct (price_mentioned m) as [p|]; [eauto|contradiction].
  - right. exact Hb.
Qed.

Lemma ids_increasing_NoDup (l : list Message) :
  ids_increasing l -> List.NoDup (map message_id l).
Proof.
  induction l as [|m l IH]; intros H; [constructor|].
  destruct H as [Hm Hl]. cbn [map]. constructor; [|apply IH, Hl].
  intros Hin. apply in_map_iff in Hin as (m' & E & Hm').
  rewrite List.Forall_forall in Hm. specialize (Hm m' Hm'). lia.
Qed.

(** X5: in every store the routes can produce, the identifiers of the
    messages grow with the order of insertion, so no two messages share
    one. *)
Theorem message_ids_grow (db : DB) :
  reachable' db ->
  ids_increasing (messages db) /\ List.NoDup (map message_id (messages db)).
Proof.
  intros H. destruct (reachable_store_ok db H) as (_ & _ & Hids & _).
  split; [exact Hids|apply ids_increasing_NoDup, Hids].
Qed.

Lemma create_suppliers_appends (env : Env) (o : Opportunity)
    (rq : Requirements) (add : string) (session : Z) (names : list string)
    (n : nat) (pending : option (Z * string * nat)) (d : DB) :
  (exists added,
     messages (create_suppliers env o rq add session names n pending d).2
     = (messages d ++ added)%list) /\
  sessions (create_suppliers env o rq add session names n pending d).2
  = sessions d.
Proof.
  apply (create_suppliers_invariant env o rq add session
           (fun _ d' =>
              (exists added, messages d' = (messages d ++ added)%list) /\
              sessions d' = sessions d)).
  - intros pending' d' [[added Ha] Hs]. rewrite flush_sessions.
    split; [|exact Hs].
    destruct (flush_messages env pending' d') as [->|(m & -> & _)].
    + exists added. exact Ha.
    + exists (added ++ [m])%list. rewrite Ha, app_assoc. reflexivity.
  - intros d' name [Ha Hs]. cbv zeta. auto.
  - split; [exists []; symmetry; apply app_nil_r|reflexivity].
Qed.

Lemma create_appends (env : Env) (db : DB) (o : Opportunity) (target : float)
    (add : string) (num : Z) :
  (exists added,
     messages (create' env db o target add num).2
     = (messages db ++ added)%list) /\
  (forall k row, sessions db !! k = Some row ->
                 sessions (create' env db o target add num).2 !! k = Some row).
Proof.
  unfold create_negotiation.
  destruct (extract_requirements_from_opportunity _ _ _) as [rq|];
    [|split; [exists []; symmetry; apply app_nil_r|auto]].
  cbv zeta.
  match goal with
  | |- context [create_suppliers env o rq add ?i ?names 0%nat None ?d] =>
      destruct (create_suppliers_appends env o rq add i names 0%nat None d)
        as [Ha Hs]
  end.
  split; [exact Ha|].
  intros k row Hk. rewrite Hs. cbn [sessions].
  rewrite lookup_insert_ne; [exact Hk|].
  intros <-. rewrite next_key_fresh in Hk. discriminate.
Qed.

(** X6: no request removes or changes a message: after any create, advance
    or accept request, successful or not, the messages are those of before
    followed by the ones the request filed. *)
Theorem requests_only_append_messages (env : Env) (db : DB) (r : request) :
  exists added, messages (step' env db r).2 = (messages db ++ added)%list.
Proof.
  destruct r as [o t a n|sid i|sid i]; cbn [handle].
  - apply create_appends.
  - destruct (respond_messages env db sid i) as (added & H & _).
    exists added. exact H.
  - exists []. rewrite app_nil_r. unfold accept_quote.
    destruct (suppliers db !! i); reflexivity.
Qed.

(** X7: no request changes a session: after any create, advance or accept
    request every session is as it was, with its target price and its
    requirements; creation only adds a session under a new identifier. *)
Theorem sessions_never_change
    (env : Env) (db : DB) (r : request) (k : Z) (row : NegotiationSession) :
  sessions db !! k = Some row ->
  sessions (step' env db r).2 !! k = Some row.
Proof.
  intros Hk. destruct r as [o t a n|sid i|sid i]; cbn [handle].
  - apply create_appends, Hk.
  - destruct (respond' env db sid i) as [code db'] eqn:E. destruct code.
    + apply respond_ok_inv in E
        as (session & s & rq & response & price & msg & rest & _ & _ & _ & _
            & _ & _ & _ & _ & _ & Hs & _).
      cbn. rewrite Hs. exact Hk.
    + pose proof (respond_not_ok hash json_loads env db sid i) as H.
      rewrite E in H. cbn in *. rewrite H by discriminate. exact Hk.
    + pose proof (respond_not_ok hash json_loads env db sid i) as H.
      rewrite E in H. cbn in *. rewrite H by discriminate. exact Hk.
  - unfold accept_quote. destruct (suppliers db !! i); exact Hk.
Qed.

End Stores.

Section Requests.

Variable hash : string -> Z.
Variable json_loads : string -> option Requirements.

(** *** Repeated and failing requests *)

Lemma accepted_row_fixed (s : Supplier) (p : float) :
  with_status (with_final_price (with_status s "completed") p) "completed"
  = with_final_price (with_status s "completed") p /\
  with_final_price (with_final_price (with_status s "completed") p) p
  = with_final_price (with_status s "completed") p /\
  with_status (with_status s "completed") "completed"
  = with_status s "completed".
Proof. destruct s; repeat split. Qed.

(** X8: accepting twice is accepting once: a second [accept_quote] for the
    same supplier, under any session identifier, answers as the first and
    leaves the store of the first. *)
Theorem accept_is_idempotent (db : DB) (sid sid' id : Z) :
  accept_quote (accept_quote db sid id).2 sid' id = accept_quote db sid id.
Proof.
  unfold accept_quote at 2 3.
  destruct (suppliers db !! id) as [s|] eqn:Hs; cbn [snd].
  - cbv zeta. unfold accept_quote.
    cbn [suppliers set_suppliers messages supplier_sent].
    rewrite lookup_insert_eq. cbv zeta.
    unfold supplier_sent. cbn [messages set_suppliers].
    destruct (latest (List.filter (from_supplier id) (messages db))) as [m|].
    + destruct (price_mentioned m) as [p|].
      * destruct (truthy p).
        -- destruct (accepted_row_fixed s p) as (-> & -> & _).
           unfold set_suppliers. cbn [sessions suppliers messages].
           rewrite insert_insert_eq. reflexivity.
        -- destruct (accepted_row_fixed s p) as (_ & _ & ->).
           unfold set_suppliers. cbn [sessions suppliers messages].
           rewrite insert_insert_eq. reflexivity.
      * destruct (accepted_row_fixed s (S754_zero false)) as (_ & _ & ->).
        unfold set_suppliers. cbn [sessions suppliers messages].
        rewrite insert_insert_eq. reflexivity.
    + destruct (accepted_row_fixed s (S754_zero false)) as (_ & _ & ->).
      unfold set_suppliers. cbn [sessions suppliers messages].
      rewrite insert_insert_eq. reflexivity.
  - unfold accept_quote. rewrite Hs. reflexivity.
Qed.


(** *** The names of the suppliers to create *)

Lemma pad_names_spec (k : nat) (names : list string) :
  pad_names k names
  = (names ++ map (fun j => placeholder (length names + j)) (seq 0 k))%list.
Proof.
  revert names. induction k as [|k IH]; intros names; cbn [pad_names].
  - cbn. symmetry. apply app_nil_r.
  - rewrite IH. cbn [seq map]. rewrite <- app_assoc. cbn [app].
    f_equal. f_equal.
    + unfold placeholder. rewrite Nat.add_0_r. reflexivity.
    + rewrite <- seq_shift, map_map. apply map_ext. intros j.
      rewrite length_app. cbn [length]. f_equal. lia.
Qed.

(** X10: the names [create_negotiation] creates suppliers for.  For a
    number of suppliers n >= 0 there are exactly n names: the first n
    suggested names, then placeholders numbered by their position,
    'Qualified Contractor #k' at position k.  A negative n asks for no
    placeholder and drops the last -n suggested names instead. *)
Theorem supplier_names_padded_or_cut (rq : Requirements) (n : Z) :
  let suggested := default [] (suggested_suppliers rq) in
  (0 <= n ->
   length (supplier_names rq n) = Z.to_nat n /\
   (forall i name, (i < Z.to_nat n)%nat -> suggested !! i = Some name ->
                   supplier_names rq n !! i = Some name) /\
   (forall i, (length suggested <= i < Z.to_nat n)%nat ->
              supplier_names rq n !! i = Some (placeholder i))) /\
  (n < 0 ->
   supplier_names rq n
   = take (length suggested - Z.to_nat (- n)) suggested).
Proof.
  intros suggested. unfold supplier_names. fold suggested.
  split; intros Hn.
  - unfold slice_to. destruct (Z.leb_spec 0 n); [|lia].
    rewrite pad_names_spec. set (t := take (Z.to_nat n) suggested).
    assert (Ht : length t = Nat.min (Z.to_nat n) (length suggested))
      by apply length_take.
    split; [|split].
    + rewrite length_app, length_map, length_seq. lia.
    + intros i name Hi Hname.
      rewrite lookup_app_l.
      * unfold t. rewrite lookup_take_lt by exact Hi. exact Hname.
      * apply lookup_lt_Some in Hname. lia.
    + intros i Hi.
      rewrite lookup_app_r by lia.
      rewrite list_lookup_fmap.
      assert (Hlen : length t = length suggested) by lia.
      rewrite Hlen.
      replace (seq 0 (Z.to_nat (n - Z.of_nat (length suggested))) !!
                 (i - length suggested)%nat)
        with (Some (i - length suggested)%nat).
      * cbn. f_equal. f_equal. lia.
      * symmetry. apply lookup_seq. lia.
  - unfold slice_to. destruct (Z.leb_spec 0 n); [lia|].
    set (t := take _ suggested).
    replace (Z.to_nat (n - Z.of_nat (length t))) with 0%nat by lia.
    reflexivity.
Qed.

End Requests.

Section Creation.

Variable json_loads : string -> option Requirements.
Variable json_dumps : Requirements -> string.

Lemma flush_added (env : Env) (pending : option (Z * string * nat))
    (db : DB) :
  exists added,
    messages (flush env pending db) = (messages db ++ added)%list /\
    map supplier_id added = pending_ids pending /\
    Forall (fun m => sender m = "buyer" /\ price_mentioned m = None) added.
Proof.
  destruct pending as [[[i t] k]|]; cbn.
  - eexists [_]. split; [reflexivity|]. split; [reflexivity|].
    constructor; [split; reflexivity|constructor].
  - exists []. rewrite app_nil_r. repeat split. constructor.
Qed.

Lemma create_suppliers_ok (env : Env) (o : Opportunity) (rq : Requirements)
    (add : string) (session : Z) (names : list string) :
  forall (n : nat) (pending : option (Z * string * nat)) (db db' : DB),
    create_suppliers env o rq add session names n pending db = (OK, db') ->
    exists ids,
      length ids = length names /\ List.NoDup ids /\
      Forall (fun id => suppliers db !! id = None) ids /\
      (forall i id name,
         ids !! i = Some id -> names !! i = Some name ->
         suppliers db' !! id = Some (new_row rq session name)) /\
      (forall j, ~ In j ids -> suppliers db' !! j = suppliers db !! j) /\
      sessions db' = sessions db /\
      exists added,
        messages db' = (messages db ++ added)%list /\
        map supplier_id added = (pending_ids pending ++ ids)%list /\
        Forall (fun m => sender m = "buyer" /\ price_mentioned m = None)
          added.
Proof.
  induction names as [|name rest IH]; intros n pending db db';
    cbn [create_suppliers].
  - intros [= <-]. exists []. split; [reflexivity|].
    split; [constructor|]. split; [constructor|].
    split; [intros i id name Hi; rewrite lookup_nil in Hi; discriminate|].
    split; [intros j _; apply (f_equal (fun t => t !! j)), flush_suppliers|].
    split; [apply flush_sessions|].
    destruct (flush_added env pending db) as (added & Hm & Hids & Hb).
    exists added. rewrite app_nil_r. auto.
  - cbv zeta.
    pose proof (flush_suppliers env pending db) as Hfs.
    pose proof (flush_sessions env pending db) as Hfse.
    destruct (flush_added env pending db) as (added0 & Hm0 & Hids0 & Hb0).
    set (db0 := flush env pending db) in *.
    set (id := next_key (suppliers db0)).
    assert (Hfresh : suppliers db !! id = None)
      by (rewrite <- Hfs; apply next_key_fresh).
    destruct (complete_initial_request _ _ _ _ _) as [text|]; [|discriminate].
    intros E. apply IH in E
      as (ids & Hlen & Hnd & Hnew & Hrows & Hothers & Hses & added & Hm
          & Hids & Hb).
    cbn [suppliers set_suppliers messages sessions pending_ids] in *.
    assert (Hnotin : ~ In id ids).
    { intros Hin. rewrite List.Forall_forall in Hnew.
      specialize (Hnew id Hin). rewrite lookup_insert_eq in Hnew.
      discriminate. }
    exists (id :: ids). split; [cbn; lia|].
    split; [constructor; assumption|].
    split.
    { constructor; [exact Hfresh|].
      rewrite List.Forall_forall in *. intros j Hj.
      specialize (Hnew j Hj).
      destruct (decide (id = j)) as [<-|Hne]; [contradiction|].
      rewrite lookup_insert_ne in Hnew by exact Hne.
      rewrite <- Hfs. exact Hnew. }
    split.
    { intros [|i] j nm Hi Hn; cbn in Hi, Hn.
      - injection Hi as <-. injection Hn as <-.
        rewrite (Hothers id Hnotin). apply lookup_insert_eq.
      - apply (Hrows i j nm Hi Hn). }
    split.
    { intros j Hj. rewrite Hothers by (intros H; apply Hj; right; exact H).
      rewrite lookup_insert_ne by (intros <-; apply Hj; left; reflexivity).
      rewrite Hfs. reflexivity. }
    split; [rewrite Hses; exact Hfse|].
    exists (added0 ++ added)%list.
    split; [rewrite Hm, Hm0, app_assoc; reflexivity|].
    split.
    + rewrite map_app, Hids0, Hids. reflexivity.
    + apply Forall_app. split; assumption.
Qed.

(** X11: what a successful creation adds.  The store gets one session, under
    a new identifier, holding the target price and the requirements; one
    supplier for each name, under distinct new identifiers, each pending at
    round 0 without prices and belonging to the new session; and one message
    of the buyer for each of these suppliers, in their order, without
    price.  Every other row is as it was. *)
Theorem successful_creation_adds_session_suppliers_and_requests
    (env : Env) (db db' : DB) (o : Opportunity) (target : float)
    (add : string) (num : Z) :
  create_negotiation json_loads json_dumps env db o target add num
  = (OK, db') ->
  exists rq ids added,
    extract_requirements_from_opportunity json_loads env o = Some rq /\
    sessions db !! next_key (sessions db) = None /\
    sessions db'
    = <[next_key (sessions db) := new_session json_dumps o target rq]> (sessions db) /\
    length ids = length (supplier_names rq num) /\
    List.NoDup ids /\
    Forall (fun id => suppliers db !! id = None) ids /\
    (forall i id name,
       ids !! i = Some id -> supplier_names rq num !! i = Some name ->
       suppliers db' !! id
       = Some (new_row rq (next_key (sessions db)) name)) /\
    (forall j, ~ In j ids -> suppliers db' !! j = suppliers db !! j) /\
    messages db' = (messages db ++ added)%list /\
    map supplier_id added = ids /\
    Forall (fun m => sender m = "buyer" /\ price_mentioned m = None) added.
Proof.
  unfold create_negotiation.
  destruct (extract_requirements_from_opportunity _ _ _) as [rq|];
    [|discriminate].
  cbv zeta. intros E. apply create_suppliers_ok in E
    as (ids & Hlen & Hnd & Hnew & Hrows & Hothers & Hses & added & Hm & Hids
        & Hb).
  exists rq, ids, added. cbn [sessions suppliers messages pending_ids app] in *.
  split; [reflexivity|]. split; [apply next_key_fresh|].
  split; [exact Hses|]. repeat (split; [assumption|]). assumption.
Qed.

(** X12: a creation is not undone when it fails half-way.  Once the
    requirements are extracted the session is stored, whatever the reply;
    and when the request to the first supplier cannot be generated the reply
    is a server error while the store keeps the new session and that
    supplier, without any message. *)
Theorem failed_creation_keeps_what_it_stored
    (env : Env) (db : DB) (o : Opportunity) (target : float) (add : string)
    (num : Z) (rq : Requirements) :
  extract_requirements_from_opportunity json_loads env o = Some rq ->
  let sid := next_key (sessions db) in
  let res := create_negotiation json_loads json_dumps env db o target add num in
  sessions res.2 = <[sid := new_session json_dumps o target rq]> (sessions db) /\
  (forall name rest,
     supplier_names rq num = name :: rest ->
     complete_initial_request (llm env) o rq name add = None ->
     res = (SERVER_ERROR,
            {| sessions := <[sid := new_session json_dumps o target rq]> (sessions db);
               suppliers :=
                 <[next_key (suppliers db) := new_row rq sid name]>
                   (suppliers db);
               messages := messages db |})).
Proof.
  intros Hrq sid res. unfold res, create_negotiation. rewrite Hrq. cbv zeta.
  split.
  - match goal with
    | |- context [create_suppliers env o rq add ?i ?names 0%nat None ?d] =>
        destruct (create_suppliers_appends env o rq add i names 0%nat None d)
          as [_ Hs]
    end.
    rewrite Hs. reflexivity.
  - intros name rest Hnames Hfail. rewrite Hnames.
    cbn [create_suppliers flush]. cbv zeta. rewrite Hfail. reflexivity.
Qed.

End Creation.

(* ================================================================== *)
(** ** The status of a negotiation *)
(* ================================================================== *)

Section Status.

Variable hash : string -> Z.
Variable json_loads : string -> option Requirements.
Variable json_dumps : Requirements -> string.

Lemma supplier_metrics_returns (s : Supplier) :
  exists m,
    supplier_metrics s = Some m /\
    (m <> None <->
     status s = "completed" /\ is_set (initial_price s) = true /\
     is_set (final_price s) = true).
Proof.
  unfold supplier_metrics.
  destruct (String.eqb_spec (status s) "completed") as [Hst|Hst];
    cbn [andb].
  - destruct (initial_price s) as [i|]; cbn [is_set andb].
    + destruct (truthy i) eqn:Hi; cbn [andb].
      * destruct (final_price s) as [f|]; cbn [is_set].
        -- destruct (truthy f) eqn:Hf.
           ++ unfold build_metrics, py_div. unfold truthy in Hi.
              apply negb_true_iff in Hi. rewrite Hi.
              eexists. split; [reflexivity|]. split; [auto|discriminate].
           ++ exists None. split; [reflexivity|].
              split; [contradiction|]. intros (_ & _ & H). discriminate.
        -- exists None. split; [reflexivity|].
           split; [contradiction|]. intros (_ & _ & H). discriminate.
      * exists None. split; [reflexivity|].
        split; [contradiction|]. intros (_ & H & _). discriminate.
    + exists None. split; [reflexivity|].
      split; [contradiction|]. intros (_ & H & _). discriminate.
  - exists None. split; [reflexivity|].
    split; [contradiction|]. intros (H & _). contradiction.
Qed.

Lemma status_entries_returns (db : DB) (rows : list (Z * Supplier)) :
  exists entries,
    status_entries db rows = Some entries /\
    Forall2 (fun row e =>
               entry_id e = row.1 /\
               entry_company_name e = company_name row.2 /\
               entry_status e = status row.2 /\
               entry_negotiation_round e = negotiation_round row.2 /\
               entry_messages e = messages_of db row.1 /\
               supplier_metrics row.2 = Some (entry_metrics e))
      rows entries.
Proof.
  induction rows as [|[id s] rows (entries & IH & Hall)];
    cbn [status_entries].
  - exists []. split; [reflexivity|constructor].
  - destruct (supplier_metrics_returns s) as (m & Hm & _).
    rewrite Hm, IH. eexists. split; [reflexivity|].
    constructor; [|exact Hall]. cbn. repeat split. exact Hm.
Qed.

Lemma suppliers_of_In (db : DB) (sid id : Z) (s : Supplier) :
  In (id, s) (suppliers_of db sid) <->
  suppliers db !! id = Some s /\ session_id s = sid.
Proof.
  unfold suppliers_of. rewrite List.filter_In, <- list_elem_of_In.
  rewrite elem_of_map_to_list. cbn. rewrite Z.eqb_eq. tauto.
Qed.


Lemma Forall2_find_right {A B} (R : A -> B -> Prop) (l : list A)
    (l' : list B) (a : A) :
  Forall2 R l l' -> In a l -> exists b, In b l' /\ R a b.
Proof.
  induction 1 as [|x y l l' Hxy _ IH]; intros Hin; [destruct Hin|].
  destruct Hin as [->|Hin]; [exists y; split; [left; reflexivity|exact Hxy]|].
  destruct (IH Hin) as (b & Hb & HR). exists b. split; [right|]; assumption.
Qed.

Lemma Forall2_find_left {A B} (R : A -> B -> Prop) (l : list A)
    (l' : list B) (b : B) :
  Forall2 R l l' -> In b l' -> exists a, In a l /\ R a b.
Proof.
  induction 1 as [|x y l l' Hxy _ IH]; intros Hin; [destruct Hin|].
  destruct Hin as [->|Hin]; [exists x; split; [left; reflexivity|exact Hxy]|].
  destruct (IH Hin) as (a & Ha & HR). exists a. split; [right|]; assumption.
Qed.

(** X14: the snapshot lists the suppliers of the session and only them,
    each with its status and round, and shows the metrics of a supplier
    exactly when it is completed with an initial and a final price that are
    set and not zero. *)
Theorem snapshot_lists_the_suppliers_and_guards_the_metrics
    (db : DB) (sid : Z) (session : NegotiationSession)
    (entries : list SupplierStatus) :
  get_negotiation_status db sid = (OK, Some (session, entries)) ->
  sessions db !! sid = Some session /\
  (forall id s,
     suppliers db !! id = Some s -> session_id s = sid ->
     exists e,
       In e entries /\ entry_id e = id /\ entry_status e = status s /\
       entry_negotiation_round e = negotiation_round s /\
       (entry_metrics e <> None <->
        status s = "completed" /\ is_set (initial_price s) = true /\
        is_set (final_price s) = true)) /\
  (forall e,
     In e entries ->
     exists s, suppliers db !! entry_id e = Some s /\ session_id s = sid).
Proof.
  unfold get_negotiation_status.
  destruct (sessions db !! sid) as [session'|]; [|discriminate].
  destruct (status_entries_returns db (suppliers_of db sid))
    as (entries' & -> & Hall).
  intros [= <- <-]. split; [reflexivity|]. split.
  - intros id s Hs Hsid.
    assert (Hin : In (id, s) (suppliers_of db sid))
      by (apply suppliers_of_In; auto).
    destruct (Forall2_find_right _ _ _ _ Hall Hin)
      as (e & He & H1 & _ & H3 & H4 & _ & H6).
    exists e. cbn in *. repeat (split; [assumption|]).
    destruct (supplier_metrics_returns s) as (m & Hm & Hiff).
    rewrite Hm in H6. injection H6 as <-. exact Hiff.
  - intros e He.
    destruct (Forall2_find_left _ _ _ _ Hall He) as ([id s] & Hin & H1 & _).
    cbn in H1. exists s. rewrite H1. apply suppliers_of_In, Hin.
Qed.

(** X15: in the stores the routes produce, metrics need a reply: a supplier
    without any reply, even completed by an accept, has no metrics, and a
    supplier with metrics is completed and has replied at least once.  For
    an initial price of 1000 and a final price of 800 the metrics read
    1000.00, 800.00, 200.00 and 20.0. *)
Theorem metrics_need_a_reply (db : DB) (id : Z) (s : Supplier) :
  reachable hash json_loads json_dumps db ->
  suppliers db !! id = Some s ->
  (count_supplier_sent db id = 0 -> supplier_metrics s = Some None) /\
  (forall m,
     supplier_metrics s = Some (Some m) ->
     status s = "completed" /\ 1 <= count_supplier_sent db id) /\
  build_metrics (Some (of_int 1000)) (Some (of_int 800))
  = Some {| metrics_initial_price := "1000.00";
            metrics_final_price := "800.00";
            metrics_savings := "200.00";
            metrics_savings_percent := "20.0" |}.
Proof.
  intros Hreach Hs.
  destruct (reachable_store_ok hash json_loads json_dumps db Hreach)
    as (_ & _ & _ & Hrows).
  destruct (Hrows id s Hs) as (_ & Hi & _).
  destruct (supplier_metrics_returns s) as (m & Hm & Hiff).
  split; [|split; [|vm_compute; reflexivity]].
  - intros Hc. apply Hi in Hc. rewrite Hm. f_equal.
    destruct m as [m|]; [|reflexivity].
    destruct Hiff as [Hiff _].
    destruct (Hiff ltac:(discriminate)) as (_ & H & _).
    rewrite Hc in H. discriminate.
  - intros m' Hm'. rewrite Hm in Hm'. injection Hm' as ->.
    destruct Hiff as [Hiff _].
    destruct (Hiff ltac:(discriminate)) as (Hst & H & _).
    split; [exact Hst|].
    pose proof (count_nonneg db id) as Hnn.
    destruct (Z.eq_dec (count_supplier_sent db id) 0) as [E|E]; [|lia].
    apply Hi in E. rewrite E in H. discriminate.
Qed.

End Status.

(* ================================================================== *)
(** ** The document analysis *)
(* ================================================================== *)

Section Documents.

Variable json : Type.
Variable unicode_escape : string -> App.exn string.
Variable json_loads : string -> App.exn json.

Abbreviation analyze' :=
  (App.analyze_solicitations json unicode_escape json_loads).

Lemma uploads_In (fetch : string -> option string) (urls : list string)
    (file : string) :
  In file (App.download_and_upload_each fetch urls) <->
  exists url, In url urls /\ fetch url = Some file.
Proof.
  induction urls as [|u urls IH]; cbn [App.download_and_upload_each].
  - split; [intros []|intros (url & [] & _)].
  - destruct (fetch u) as [f|] eqn:E.
    + split.
      * intros [<-|H]; [exists u; split; [left; reflexivity|exact E]|].
        apply IH in H as (url & Hu & Hf). exists url. split; [right|]; auto.
      * intros (url & [<-|Hu] & Hf); [left; congruence|].
        right. apply IH. exists url. auto.
    + rewrite IH. split; intros (url & Hu & Hf).
      * exists url. split; [right|]; auto.
      * destruct Hu as [<-|Hu]; [congruence|]. exists url. auto.
Qed.

Lemma uploads_none (fetch : string -> option string) (urls : list string) :
  App.download_and_upload_each fetch urls = [] <->
  forall url, In url urls -> fetch url = None.
Proof.
  split.
  - intros H url Hu. destruct (fetch url) as [f|] eqn:E; [|reflexivity].
    assert (Hin : In f (App.download_and_upload_each fetch urls))
      by (apply uploads_In; exists url; auto).
    rewrite H in Hin. destruct Hin.
  - intros H. destruct (App.download_and_upload_each fetch urls) as [|f l]
      eqn:E; [reflexivity|].
    assert (Hin : In f (App.download_and_upload_each fetch urls))
      by (rewrite E; left; reflexivity).
    apply uploads_In in Hin as (url & Hu & Hf).
    rewrite (H url Hu) in Hf. discriminate.
Qed.

(** X16: the document analysis tolerates the urls that fail and needs one
    that succeeds.  Without urls the reply is 400 and nothing is fetched;
    when every url fails the reply is 500, 'Failed to upload any files.',
    and the model is not called; otherwise the model is called once, with
    the files of the urls that succeeded, and a failure of that call is a
    reply 500 with its message. *)
Theorem analysis_needs_one_uploaded_file
    (fetch : string -> option string) (create : list string -> App.exn string)
    (urls : list string) :
  let svc := App.services_with fetch create in
  let files := App.download_and_upload_each fetch urls in
  (forall svc',
     analyze' svc' None = analyze' svc' (Some []) /\
     analyze' svc' None
     = App.Jsonify json [("error", "Missing or invalid 'urls' array.")] 400) /\
  (urls <> [] ->
   (forall url, In url urls -> fetch url = None) ->
   forall create',
     analyze' (App.services_with fetch create') (Some urls)
     = App.Jsonify json [("error", "Failed to upload any files.")] 500) /\
  (forall file, In file files <->
                exists url, In url urls /\ fetch url = Some file) /\
  (files <> [] ->
   forall e, create files = App.Raise e ->
             analyze' svc (Some urls) = App.Jsonify json [("error", e)] 500) /\
  (files <> [] ->
   forall raw_output result,
     create files = App.Return raw_output ->
     App.parse_steps json unicode_escape json_loads raw_output
     = App.Return result ->
     analyze' svc (Some urls) = App.Value json (Some result)).
Proof.
  intros svc files. split; [|split; [|split; [|split]]].
  - intros svc'. split; reflexivity.
  - intros Hne Hfail create'. unfold App.analyze_solicitations.
    destruct urls as [|u urls']; [contradiction|].
    cbn [App.download_and_upload_files App.services_with].
    rewrite (proj2 (uploads_none fetch (u :: urls')) Hfail). reflexivity.
  - intros file. apply uploads_In.
  - intros Hfiles e He. unfold App.analyze_solicitations.
    destruct urls as [|u urls']; [contradiction Hfiles; reflexivity|].
    unfold svc. cbn [App.download_and_upload_files App.services_with
                     App.responses_create].
    fold files. destruct files as [|f fs]; [contradiction|].
    rewrite He. reflexivity.
  - intros Hfiles raw_output result Hc Hp. unfold App.analyze_solicitations.
    destruct urls as [|u urls']; [contradiction Hfiles; reflexivity|].
    unfold svc. cbn [App.download_and_upload_files App.services_with
                     App.responses_create].
    fold files. destruct files as [|f fs]; [contradiction|].
    rewrite Hc. unfold App.parse_raw_output. rewrite Hp. reflexivity.
Qed.

(** *** The quotes around the reply *)

Lemma substring_all (s t : string) :
  substring 0 (String.length s) (s ++ t) = s.
Proof.
  induction s as [|c s IH]; [destruct t; reflexivity|].
  change (String c s ++ t)%string with (String c (s ++ t)).
  cbn [String.length substring]. f_equal. exact IH.
Qed.

Lemma ends_with_quote_app (s : string) :
  App.ends_with_quote (s ++ String App.quote_char EmptyString) = true.
Proof.
  induction s as [|c s IH]; [reflexivity|].
  change (String c s ++ String App.quote_char EmptyString)%string
    with (String c (s ++ String App.quote_char EmptyString)).
  cbn [App.ends_with_quote].
  destruct (s ++ String App.quote_char EmptyString)%string eqn:E;
    [destruct s; discriminate|exact IH].
Qed.

Lemma length_append (s t : string) :
  String.length (s ++ t) = (String.length s + String.length t)%nat.
Proof.
  induction s as [|c s IH]; [reflexivity|].
  change (String c s ++ t)%string with (String c (s ++ t)).
  cbn [String.length Nat.add]. f_equal. exact IH.
Qed.

(** X17: [parse_raw_output] takes one pair of surrounding quotes off the
    decoded reply before it parses it: a reply that decodes to a quoted
    text is parsed as the text between the quotes, whatever that text is,
    and a reply that does not both start and end with a quote is parsed as
    it is. *)
Theorem surrounding_quotes_are_stripped (raw_output cleaned : string) :
  unicode_escape raw_output = App.Return cleaned ->
  (forall s, cleaned = quoted_text s ->
             App.parse_steps json unicode_escape json_loads raw_output
             = json_loads s) /\
  (App.starts_with_quote cleaned && App.ends_with_quote cleaned = false ->
   App.parse_steps json unicode_escape json_loads raw_output
   = json_loads cleaned).
Proof.
  intros Hd. unfold App.parse_steps. rewrite Hd. split.
  - intros s ->. unfold quoted_text.
    cbn [App.starts_with_quote]. rewrite Ascii.eqb_refl.
    change (App.ends_with_quote
              (String App.quote_char (s ++ String App.quote_char "")))
      with (App.ends_with_quote
              ((String App.quote_char s) ++ String App.quote_char "")).
    rewrite ends_with_quote_app. cbn [andb]. f_equal.
    unfold App.strip_ends. cbn [String.length substring].
    rewrite length_append. cbn [String.length].
    replace (S (String.length s + 1) - 2)%nat with (String.length s) by lia.
    apply substring_all.
  - intros ->. reflexivity.
Qed.

End Documents.

(* ================================================================== *)
(** ** Further properties of the prices *)
(* ================================================================== *)

Lemma flt_fge_trans (x y z : float) :
  flt x y = true -> fge z y = true -> flt x z = true.
Proof.
  unfold flt, fge, SFltb, SFleb, SFcompare.
  destruct x as [sx|sx| |sx mx ex], y as [sy|sy| |sy my ey],
           z as [sz|sz| |sz mz ez];
    repeat match goal with b : bool |- _ => destruct b end; try congruence;
    repeat match goal with
    | |- context [Z.compare ?a ?b] => destruct (Z.compare_spec a b)
    | |- context [PosDef.Pos.compare_cont Eq ?a ?b] =>
        change (PosDef.Pos.compare_cont Eq a b) with (Pos.compare a b);
        destruct (Pos.compare_spec a b)
    end; cbn [CompOpp]; try congruence; try lia.
Qed.

Section Rounds.

Variable hash : string -> Z.

(** X18: the multiplier goes down from round to round: the multiplier of
    round 1 is below every multiplier of round 0 and above every multiplier
    of a later round, for all company names and whatever their hashes. *)
Theorem multiplier_decreases_with_the_round
    (name0 name1 name2 : string) (round_num : Z) :
  2 <= round_num ->
  flt (price_multiplier hash name1 1) (price_multiplier hash name0 0) = true /\
  flt (price_multiplier hash name2 round_num) (price_multiplier hash name1 1)
  = true.
Proof.
  intros Hr. unfold price_multiplier.
  destruct (Z.eqb_spec round_num 0); [lia|].
  destruct (Z.eqb_spec round_num 1); [lia|]. cbn [Z.eqb].
  pose proof (opening_multiplier (hash name0 mod 30)
                (Z.mod_pos_bound _ 30 eq_refl)) as H0.
  pose proof (second_multiplier (hash (name1 ++ str_of_int 1) mod 20)
                (Z.mod_pos_bound _ 20 eq_refl)) as H1.
  pose proof (final_multiplier (hash (name2 ++ str_of_int round_num) mod 15)
                (Z.mod_pos_bound _ 15 eq_refl)) as H2.
  apply andb_true_iff in H0 as [H0 _]. apply andb_true_iff in H1 as [H1 H1'].
  apply andb_true_iff in H2 as [_ H2].
  split.
  - apply (flt_fge_trans _ (of_decimal 150 2)); [|exact H0].
    apply (flt_fge_trans _ (of_decimal 145 2)); [exact H1'|].
    vm_compute. reflexivity.
  - apply (flt_fge_trans _ (of_decimal 125 2)); [exact H2|exact H1].
Qed.

End Rounds.

(** *** The sign of an extracted price *)

Lemma shr_1_nonneg (mrs : shr_record) : 0 <= shr_m mrs -> 0 <= shr_m (shr_1 mrs).
Proof.
  destruct mrs as [m r s]. cbn [shr_m shr_1].
  destruct m as [|p|p]; [cbn; lia| |lia].
  destruct p; cbn; lia.
Qed.

Lemma iter_pos_nonneg (p : positive) (mrs : shr_record) :
  0 <= shr_m mrs -> 0 <= shr_m (SpecFloat.iter_pos shr_1 p mrs).
Proof.
  revert mrs. induction p as [p IH|p IH|]; intros mrs H; cbn [SpecFloat.iter_pos].
  - apply IH, IH, shr_1_nonneg, H.
  - apply IH, IH, H.
  - apply shr_1_nonneg, H.
Qed.

Lemma shr_fexp_nonneg (m e : Z) (l : location) :
  0 <= m -> 0 <= shr_m (shr_fexp prec emax m e l).1.
Proof.
  intros H. unfold shr_fexp, shr.
  assert (H0 : 0 <= shr_m (shr_record_of_loc m l))
    by (destruct l as [|[]]; exact H).
  destruct (_ - e) as [|p|p]; cbn [fst]; [exact H0| |exact H0].
  apply iter_pos_nonneg, H0.
Qed.

Lemma binary_round_aux_sign (sx : bool) (mx ex : Z) (lx : location) :
  0 <= mx ->
  match binary_round_aux prec emax sx mx ex lx with
  | S754_zero s | S754_infinity s | S754_finite s _ _ => s = sx
  | S754_nan => False
  end.
Proof.
  intros H. unfold binary_round_aux.
  pose proof (shr_fexp_nonneg mx ex lx H) as H1.
  destruct (shr_fexp prec emax mx ex lx) as [mrs' e'].
  cbn [fst] in H1.
  assert (H2 : 0 <= round_nearest_even (shr_m mrs') (loc_of_shr_record mrs')).
  { unfold round_nearest_even.
    destruct (loc_of_shr_record mrs') as [|[]]; try exact H1; try lia.
    destruct (Z.even (shr_m mrs')); lia. }
  pose proof (shr_fexp_nonneg _ e' loc_Exact H2) as H3.
  destruct (shr_fexp prec emax _ e' loc_Exact) as [mrs'' e''].
  cbn [fst] in H3.
  destruct (shr_m mrs'') as [|p|p]; [reflexivity| |lia].
  destruct (e'' <=? emax - prec); reflexivity.
Qed.

Lemma of_decimal_non_negative (n : Z) (k : nat) : non_negative (of_decimal n k).
Proof.
  unfold of_decimal. destruct n as [|p|p]; try exact I.
  unfold SFdiv.
  destruct (SFdiv_core_binary prec emax (Z.pos p) 0 _ 0) as [[mz ez] lz] eqn:E.
  assert (Hmz : 0 <= mz).
  { unfold SFdiv_core_binary in E.
    match type of E with
    | (let '(q, r) := Z.div_eucl ?a ?b in _) = _ =>
        pose proof (Z.div_eucl_eq a b) as Hq;
        assert (Ha : 0 <= a);
        [|assert (Hb : 0 < b) by lia;
          pose proof (Z_div_mod a b ltac:(lia)) as Hdm;
          destruct (Z.div_eucl a b) as [q r]; injection E as <- _ _;
          destruct Hdm as [Heq Hr]; nia]
    end.
    destruct (0 - 0 - _) as [|s|s]; try lia. apply Z.shiftl_nonneg. lia. }
  pose proof (binary_round_aux_sign (xorb false false) mz ez lz Hmz) as H.
  destruct (binary_round_aux prec emax (xorb false false) mz ez lz);
    cbn in *; subst; try exact I; contradiction.
Qed.

Lemma py_float_non_negative (s : string) (v : float) :
  py_float s = Some v -> non_negative v.
Proof.
  unfold py_float.
  destruct (read_digits s 0 0) as [[i ni] r].
  destruct r as [|c r'].
  - destruct (Nat.eqb ni 0); [discriminate|].
    intros [= <-]. apply of_decimal_non_negative.
  - destruct (Ascii.eqb c "."); [|discriminate].
    destruct (read_digits r' i 0) as [[v' nf] r''].
    destruct r''; [|discriminate].
    destruct (Nat.eqb (ni + nf) 0); [discriminate|].
    intros [= <-]. apply of_decimal_non_negative.
Qed.

Lemma first_labelled_non_negative (ps : list regex) (text : string)
    (v : float) :
  first_labelled ps text = Some v -> non_negative v.
Proof.
  induction ps as [|p ps IH]; cbn [first_labelled]; [discriminate|].
  destruct (labelled_price p text) as [w|] eqn:E; [|exact IH].
  intros [= <-]. unfold labelled_price in E.
  destruct (last_item (findall p text)); [|discriminate].
  apply (py_float_non_negative _ _ E).
Qed.

(** X19: a price [extract_price_from_message] returns is a number that is
    not negative (never a NaN), and when it comes from the fallback, all the
    labelled patterns having been passed over, it exceeds 100: the
    extractor never returns a price between 0 and 100 unless a label
    announces it. *)
Theorem extracted_price_is_non_negative_and_large_without_label
    (content : string) (v : float) :
  extract_price_from_message content = Some v ->
  non_negative v /\
  ((forall p, In p patterns -> passed_over p (lower content)) ->
   fgt v (of_int 100) = true).
Proof.
  unfold extract_price_from_message.
  destruct (first_labelled patterns (lower content)) as [w|] eqn:E.
  - intros [= <-]. split; [apply (first_labelled_non_negative _ _ _ E)|].
    intros Hpassed. rewrite first_labelled_none in E by exact Hpassed.
    discriminate.
  - unfold fallback_price. intros H.
    apply py_max_spec in H as [Hin _].
    apply large_amounts_In in Hin as (tok & _ & Hp & Hg).
    split; [apply (py_float_non_negative _ _ Hp)|intros _; exact Hg].
Qed.

(* ================================================================== *)
(** ** The further properties on the sample negotiation *)
(* ================================================================== *)

Lemma stores_keep_their_references_witness :
  exists s session,
    suppliers Sample.after4 !! 1 = Some s /\
    sessions Sample.after4 !! session_id s = Some session.
Proof.
  destruct (stores_keep_their_references Sample.hash Sample.loads Sample.dumps
              Sample.after4 after4_reachable) as [Hs _].
  assert (Hrow : exists s, suppliers Sample.after4 !! 1 = Some s)
    by (vm_compute; eexists; reflexivity).
  destruct Hrow as [s Hrow]. destruct (Hs 1 s Hrow) as [session H].
  exists s, session. split; [exact Hrow|exact H].
Defined.

Lemma round_counts_the_replies_witness :
  exists s,
    suppliers Sample.after4 !! 1 = Some s /\
    count_supplier_sent Sample.after4 1 = 4 /\
    negotiation_round s = Z.min 2 (count_supplier_sent Sample.after4 1).
Proof.
  eexists. split; [vm_compute; reflexivity|].
  split; [vm_compute; reflexivity|].
  apply (round_counts_the_replies Sample.hash Sample.loads Sample.dumps
           Sample.after4 1 _ after4_reachable).
  vm_compute; reflexivity.
Defined.

Lemma initial_price_and_status_witness :
  exists s,
    suppliers Sample.created !! 2 = Some s /\
    (initial_price s = None <-> count_supplier_sent Sample.created 2 = 0) /\
    (status s = "pending" -> count_supplier_sent Sample.created 2 = 0).
Proof.
  eexists. split; [vm_compute; reflexivity|].
  refine (let H := initial_price_and_status_follow_the_replies
                     Sample.hash Sample.loads Sample.dumps
                     Sample.created 2 _ created_reachable _ in
          conj (proj1 H) (proj1 (proj2 H))).
  vm_compute; reflexivity.
Defined.

Lemma replies_are_priced_witness :
  exists m,
    messages Sample.after1 !! 2%nat = Some m /\
    ((sender m = "supplier" /\ exists p, price_mentioned m = Some p) \/
     (sender m = "buyer" /\ price_mentioned m = None)).
Proof.
  eexists. split; [vm_compute; reflexivity|].
  apply (replies_are_priced_buyer_messages_are_not
           Sample.hash Sample.loads Sample.dumps Sample.after1).
  - apply advance_reachable, created_reachable.
  - vm_compute. right. right. left. reflexivity.
Defined.

Lemma message_ids_grow_witness :
  ids_increasing (messages Sample.after4) /\
  List.NoDup (map message_id (messages Sample.after4)).
Proof.
  exact (message_ids_grow Sample.hash Sample.loads Sample.dumps
           Sample.after4 after4_reachable).
Defined.

Lemma sessions_never_change_witness :
  exists row,
    sessions Sample.created !! 1 = Some row /\
    sessions Sample.two_sessions !! 1 = Some row.
Proof.
  eexists. split; [vm_compute; reflexivity|].
  apply (sessions_never_change Sample.hash Sample.loads Sample.dumps
           (Sample.env Sample.best_offer 5) Sample.created
           (Create Sample.opportunity (of_int 50000) "" 1) 1).
  vm_compute; reflexivity.
Defined.


Lemma supplier_names_witness :
  length (supplier_names Sample.requirements 3) = 3%nat /\
  supplier_names Sample.requirements 3 !! 2%nat = Some (placeholder 2) /\
  supplier_names Sample.requirements (-1) = ["Acme Federal"].
Proof.
  pose proof (supplier_names_padded_or_cut Sample.requirements 3) as [H _].
  pose proof (supplier_names_padded_or_cut Sample.requirements (-1)) as [_ H'].
  destruct (H ltac:(lia)) as (Hl & _ & Hp).
  split; [exact Hl|]. split.
  - apply Hp. cbn. lia.
  - rewrite (H' ltac:(lia)). reflexivity.
Defined.

Lemma successful_creation_witness :
  exists ids,
    length ids = 2%nat /\ List.NoDup ids /\
    map supplier_id (messages Sample.created) = ids.
Proof.
  destruct (successful_creation_adds_session_suppliers_and_requests
              Sample.loads Sample.dumps (Sample.env Sample.best_offer 0)
              empty_db Sample.created Sample.opportunity (of_int 1000) "" 2)
    as (rq & ids & added & Hrq & _ & _ & Hlen & Hnd & _ & _ & _ & Hm & Hids & _).
  - vm_compute; reflexivity.
  - exists ids. split; [|split; [exact Hnd|]].
    + rewrite Hlen. vm_compute in Hrq. injection Hrq as <-. reflexivity.
    + rewrite Hm. exact Hids.
Defined.

Lemma failed_creation_witness :
  create_negotiation Sample.loads Sample.dumps Cases.silent_env empty_db
    Sample.opportunity (of_int 1000) "" 2
  = (SERVER_ERROR,
     {| sessions :=
          <[1 := new_session Sample.dumps Sample.opportunity (of_int 1000)
                   Sample.requirements]> (sessions empty_db);
        suppliers :=
          <[1 := new_row Sample.requirements 1 "Acme Federal"]>
            (suppliers empty_db);
        messages := [] |}).
Proof.
  refine (proj2 (failed_creation_keeps_what_it_stored
                   Sample.loads Sample.dumps Cases.silent_env empty_db
                   Sample.opportunity (of_int 1000) "" 2 Sample.requirements _)
            "Acme Federal" ["Summit Supply"] _ _);
    vm_compute; reflexivity.
Defined.


Lemma snapshot_witness :
  exists session entries e,
    get_negotiation_status Cases.accepted 1 = (OK, Some (session, entries)) /\
    In e entries /\ entry_id e = 1 /\ entry_status e = "completed" /\
    entry_negotiation_round e = 2 /\ entry_metrics e <> None.
Proof.
  assert (E : exists session entries,
             get_negotiation_status Cases.accepted 1
             = (OK, Some (session, entries)))
    by (vm_compute; eexists _, _; reflexivity).
  destruct E as (session & entries & E).
  assert (Hs : exists s,
             suppliers Cases.accepted !! 1 = Some s /\ session_id s = 1 /\
             status s = "completed" /\ negotiation_round s = 2 /\
             is_set (initial_price s) = true /\ is_set (final_price s) = true)
    by (vm_compute; eexists; repeat split; reflexivity).
  destruct Hs as (s & Hrow & Hsid & Hst & Hr & Hi & Hf).
  destruct (snapshot_lists_the_suppliers_and_guards_the_metrics
              Cases.accepted 1 session entries E) as (_ & Hall & _).
  destruct (Hall 1 s Hrow Hsid) as (e & Hin & Hid & Hes & Her & Hm).
  exists session, entries, e.
  split; [exact E|]. split; [exact Hin|]. split; [exact Hid|].
  split; [rewrite Hes; exact Hst|]. split; [rewrite Her; exact Hr|].
  apply Hm. split; [exact Hst|]. split; [exact Hi|exact Hf].
Defined.

Lemma metrics_need_a_reply_witness :
  supplier_metrics Sample.acme = Some None.
Proof.
  refine (proj1 (metrics_need_a_reply Sample.hash Sample.loads Sample.dumps
                   Sample.created 1 Sample.acme created_reachable _) _);
    vm_compute; reflexivity.
Defined.

Lemma analysis_needs_one_uploaded_file_witness :
  App.analyze_solicitations string DocSample.decode DocSample.parse
    (App.services_with Cases.fetch (fun _ => App.Return "{}"))
    (Some ["https://sam.gov/missing.pdf"])
  = App.Jsonify string [("error", "Failed to upload any files.")] 500 /\
  App.analyze_solicitations string DocSample.decode DocSample.parse
    (App.services_with Cases.fetch (fun _ => App.Return "{}"))
    (Some ["https://sam.gov/missing.pdf"; "https://sam.gov/notice.pdf"])
  = App.Value string (Some "{}").
Proof.
  split.
  - refine (proj1 (proj2 (analysis_needs_one_uploaded_file
                            string DocSample.decode DocSample.parse
                            Cases.fetch (fun _ => App.Return "{}")
                            ["https://sam.gov/missing.pdf"])) _ _ _).
    + discriminate.
    + intros url [<-|[]]. reflexivity.
  - refine (proj2 (proj2 (proj2 (proj2 (analysis_needs_one_uploaded_file
                            string DocSample.decode DocSample.parse
                            Cases.fetch (fun _ => App.Return "{}")
                            ["https://sam.gov/missing.pdf";
                             "https://sam.gov/notice.pdf"])))) _ "{}" "{}" _ _).
    + discriminate.
    + reflexivity.
    + reflexivity.
Defined.

Lemma surrounding_quotes_witness :
  App.parse_steps string DocSample.decode DocSample.parse
    (quoted_text "{}") = App.Return "{}".
Proof.
  refine (proj1 (surrounding_quotes_are_stripped string DocSample.decode
                   DocSample.parse (quoted_text "{}") (quoted_text "{}") _)
            "{}" _); reflexivity.
Defined.

Lemma multiplier_decreases_witness :
  flt (price_multiplier Sample.hash "Summit Supply" 1)
      (price_multiplier Sample.hash "Acme Federal" 0) = true /\
  flt (price_multiplier Sample.hash "Acme Federal" 2)
      (price_multiplier Sample.hash "Summit Supply" 1) = true.
Proof.
  apply (multiplier_decreases_with_the_round Sample.hash
           "Acme Federal" "Summit Supply" "Acme Federal" 2).
  lia.
Defined.

Lemma extracted_price_witness :
  non_negative (of_int 4000) /\ fgt (of_int 4000) (of_int 100) = true.
Proof.
  destruct (extracted_price_is_non_negative_and_large_without_label
              "$250 shipping, $4000 unit" (of_int 4000)) as [Hn Hg].
  - vm_compute; reflexivity.
  - split; [exact Hn|]. apply Hg.
    intros p Hp. unfold patterns in Hp. cbn [In] in Hp.
    repeat (destruct Hp as [<-|Hp]; [vm_compute; reflexivity|]).
    destruct Hp.
Defined.
